(** * Session controller of the chess hook: a shallow embedding

    The development follows the TypeScript sources: [types.ts] (data),
    [services/geminiService.ts] (the provider wrapper [getAiMoveJson]) and
    the hook [useChessGame] (material count, status resolution, move
    application, AI turn, click handler, reset and the limit watcher).

    The rules engine (chess.js, loaded from a CDN) is not part of the
    repository; it is the interface [Chess.Instance] below, and the remote
    model and [JSON.parse] are the interface [Runtime].  React state is a
    record; a handler reads the values captured by its closure and queues
    updates that are applied in order, which is written as explicit state
    passing.  A handler runs on the state of the latest render.  The AI
    turn is an async function: [makeAiMove] is the turn run in one piece,
    and the part "The AI turn across its await" splits it at its [await],
    so that clicks, resets and other turns come in between. *)

From stdpp Require Import base strings list gmap.

Open Scope string_scope.

(** ** types.ts *)

Inductive PieceType := type_p | type_n | type_b | type_r | type_q | type_k.

Inductive Color := w | b.

#[global] Instance PieceType_eq_dec : EqDecision PieceType.
Proof. solve_decision. Defined.

#[global] Instance Color_eq_dec : EqDecision Color.
Proof. solve_decision. Defined.

(** The string a piece kind is at run time (the key used by [pieceValues]). *)
Definition type_key (t : PieceType) : string :=
  match t with
  | type_p => "p" | type_n => "n" | type_b => "b"
  | type_r => "r" | type_q => "q" | type_k => "k"
  end.

Record Piece := { type : PieceType; color : Color }.

(** [Square] is a template-literal string type. *)
Definition Square := string.

Record PossibleMove := { pm_to : Square; pm_flags : string }.

(** The [winner] field: ['w' | 'b' | 'draw' | null]; [null] is [None]. *)
Inductive Winner := winner_w | winner_b | winner_draw.

#[global] Instance Winner_eq_dec : EqDecision Winner.
Proof. solve_decision. Defined.

Record GameStatus := {
  isCheckmate : bool;
  isStalemate : bool;
  isDraw : bool;
  winner : option Winner;
  reason : string
}.

#[global] Instance GameStatus_eq_dec : EqDecision GameStatus.
Proof. solve_decision. Defined.

(** A move object [{ from; to; promotion? }]. *)
Record MoveObj := { from : string; to : string; promotion : option string }.

#[global] Instance MoveObj_eq_dec : EqDecision MoveObj.
Proof. solve_decision. Defined.

(** What the hook hands to [game.move]: the variable [moveToMake] is
    [string | object | null], and an index into an empty array makes it
    [undefined]. *)
Inductive MoveArg :=
| mv_null
| mv_undefined
| mv_string (san : string)
| mv_object (m : MoveObj).

(** An entry of [game.moves({ verbose: true })]. *)
Record VerboseMove := {
  vm_from : string;
  vm_to : string;
  vm_promotion : option string;
  vm_flags : string;
  vm_san : string
}.

Definition Board := list (list (option Piece)).

(** ** The rules engine interface ([ChessInstance] of types.ts)

    A chess.js instance is a mutable object.  Its content is a value of
    [Chess.position]; a method that mutates the instance returns the new
    content.  [move] answers [null] (here [None]) and leaves the instance as
    it was when it rejects its argument. *)
Module Chess.

Class Instance := {
  position : Type;
  new : position;
  fen : position -> string;
  turn : position -> Color;
  move : position -> MoveArg -> option position;
  moves : position -> list string;
  moves_verbose : position -> list VerboseMove;
  moves_square : position -> Square -> list VerboseMove;
  in_check : position -> bool;
  in_checkmate : position -> bool;
  in_stalemate : position -> bool;
  in_draw : position -> bool;
  in_threefold_repetition : position -> bool;
  insufficient_material : position -> bool;
  history : position -> list string;
  board : position -> Board
}.

End Chess.

(** ** Material count (useChessGame, [computeMaterialCount]) *)

Record Material := { white : nat; black : nat }.

#[global] Instance Material_eq_dec : EqDecision Material.
Proof. solve_decision. Defined.

Definition pieceValues : gmap string nat :=
  {[ "p" := 1; "n" := 3; "b" := 3; "r" := 5; "q" := 9; "k" := 0 ]}.

(** The body of the inner loop: one square of the board. *)
Definition countPiece (acc : Material) (sq : option Piece) : Material :=
  match sq with
  | Some piece =>
      let val := default 0 (pieceValues !! type_key (type piece)) in
      match color piece with
      | w => {| white := white acc + val; black := black acc |}
      | b => {| white := white acc; black := black acc + val |}
      end
  | None => acc
  end.

Definition computeMaterialCount (board : Board) : Material :=
  foldl (fun acc row => foldl countPiece acc row)
        {| white := 0; black := 0 |} board.

(** The array chess.js answers for [new Chess().board()]: rank 8 first. *)
Definition backRank (c : Color) : list (option Piece) :=
  (fun t => Some {| type := t; color := c |}) <$>
    [type_r; type_n; type_b; type_q; type_k; type_b; type_n; type_r].

Definition pawnRank (c : Color) : list (option Piece) :=
  replicate 8 (Some {| type := type_p; color := c |}).

Definition emptyRank : list (option Piece) := replicate 8 None.

Definition startingBoard : Board :=
  [backRank b; pawnRank b; emptyRank; emptyRank;
   emptyRank; emptyRank; pawnRank w; backRank w].

(** ** JavaScript completions

    A call either returns a value or throws; [try_catch] is
    [try { body } catch (e) { handler }]. *)

Inductive Completion (A : Type) :=
| Return (a : A)
| Throw (error : string).

Arguments Return {A} a.
Arguments Throw {A} error.

#[global] Instance Completion_ret : MRet Completion := fun A a => Return a.

#[global] Instance Completion_bind : MBind Completion := fun A B f c =>
  match c with
  | Return a => f a
  | Throw e => Throw e
  end.

Definition try_catch {A} (body : Completion A)
    (handler : string -> Completion A) : Completion A :=
  match body with
  | Return a => Return a
  | Throw e => handler e
  end.

(** ** Values produced by [JSON.parse] *)

Set Warnings "-register-all".

Inductive json :=
| JNull
| JBool (v : bool)
| JNumber (literal : string)
| JString (s : string)
| JArray (items : list json)
| JObject (members : list (string * json)).

(** The value of an own property of a parsed object; when the text repeats
    a key, [JSON.parse] keeps the last occurrence. *)
Fixpoint member (key : string) (members : list (string * json)) : option json :=
  match members with
  | [] => None
  | (k, v) :: rest =>
      match member key rest with
      | Some v' => Some v'
      | None => if decide (k = key) then Some v else None
      end
  end.

(** [parsed.key] for the keys the wrapper reads ([from], [to],
    [promotion]): reading a property of [null] throws a TypeError; strings,
    numbers, booleans and arrays have no property of these names, so the
    read gives [undefined] (here [None]). *)
Definition getProp (parsed : json) (key : string) : Completion (option json) :=
  match parsed with
  | JNull => Throw "TypeError: Cannot read properties of null"
  | JObject members => Return (member key members)
  | _ => Return None
  end.

(** [String.prototype.trim].  A text is held as its UTF-8 bytes.  The white
    space that [trim] strips (WhiteSpace and LineTerminator of ECMAScript)
    is U+0009 to U+000D and U+0020, one byte each; U+00A0, the two bytes
    194 160; and U+1680, U+2000 to U+200A, U+2028, U+2029, U+202F, U+205F,
    U+3000 and U+FEFF, three bytes each. *)
Definition isWhiteSpace (c : Ascii.ascii) : bool :=
  bool_decide (Ascii.nat_of_ascii c ∈ [9; 10; 11; 12; 13; 32]).

Definition isWhiteSpace2 (c1 c2 : Ascii.ascii) : bool :=
  bool_decide (Ascii.nat_of_ascii c1 = 194 /\ Ascii.nat_of_ascii c2 = 160).

Definition isWhiteSpace3 (c1 c2 c3 : Ascii.ascii) : bool :=
  let n1 := Ascii.nat_of_ascii c1 in
  let n2 := Ascii.nat_of_ascii c2 in
  let n3 := Ascii.nat_of_ascii c3 in
  bool_decide
    ((n1 = 225 /\ n2 = 154 /\ n3 = 128)
     \/ (n1 = 226 /\ n2 = 128
         /\ (128 <= n3 <= 138 \/ n3 = 168 \/ n3 = 169 \/ n3 = 175))
     \/ (n1 = 226 /\ n2 = 129 /\ n3 = 159)
     \/ (n1 = 227 /\ n2 = 128 /\ n3 = 128)
     \/ (n1 = 239 /\ n2 = 187 /\ n3 = 191)).

(** [String.prototype.trimStart]. *)
Fixpoint trimStart (s : string) : string :=
  match s with
  | String c1 rest1 =>
      if isWhiteSpace c1 then trimStart rest1
      else
        match rest1 with
        | String c2 rest2 =>
            if isWhiteSpace2 c1 c2 then trimStart rest2
            else
              match rest2 with
              | String c3 rest3 =>
                  if isWhiteSpace3 c1 c2 c3 then trimStart rest3 else s
              | EmptyString => s
              end
        | EmptyString => s
        end
  | EmptyString => EmptyString
  end.

(** The same on the bytes read from the end of the text. *)
Fixpoint trimReversed (s : string) : string :=
  match s with
  | String c1 rest1 =>
      if isWhiteSpace c1 then trimReversed rest1
      else
        match rest1 with
        | String c2 rest2 =>
            if isWhiteSpace2 c2 c1 then trimReversed rest2
            else
              match rest2 with
              | String c3 rest3 =>
                  if isWhiteSpace3 c3 c2 c1 then trimReversed rest3 else s
              | EmptyString => s
              end
        | EmptyString => s
        end
  | EmptyString => EmptyString
  end.

Definition trim (s : string) : string :=
  String.rev (trimReversed (String.rev (trimStart s))).

(** [Array.prototype.join]. *)
Fixpoint join (sep : string) (items : list string) : string :=
  match items with
  | [] => ""
  | [x] => x
  | x :: rest => x +:+ sep +:+ join sep rest
  end.

(** ** services/geminiService.ts *)

(** The response of the provider; its [text] accessor may be [undefined]. *)
Record Response := { text : option string }.

Definition nl : string := String (Ascii.ascii_of_nat 10) EmptyString.
Definition dquote : string := String (Ascii.ascii_of_nat 34) EmptyString.

Definition jsonPrompt (fen turn legalMovesList : string) : string :=
  nl +:+
  "You are a world-class chess engine, Super Grandmaster Gemini, with an ELO of 2300." +:+ nl +:+
  "Your task is to analyse the given chess position and determine the best possible move." +:+ nl +:+
  nl +:+
  "The current board state is represented in Forsyth-Edwards Notation (FEN)." +:+ nl +:+
  "FEN: " +:+ dquote +:+ fen +:+ dquote +:+ nl +:+
  nl +:+
  "It is " +:+ turn +:+ "'s turn to move." +:+ nl +:+
  nl +:+
  "The following legal moves are available in UCI notation: " +:+ legalMovesList +:+ "." +:+ nl +:+
  "Pick the best move from this list. Respond with a JSON object containing the" +:+ nl +:+
  "fields " +:+ dquote +:+ "from" +:+ dquote +:+ " and " +:+ dquote +:+ "to" +:+ dquote +:+
  " (lowercase squares) and an optional " +:+ dquote +:+ "promotion" +:+ dquote +:+ " field" +:+ nl +:+
  "(use " +:+ dquote +:+ "q" +:+ dquote +:+ " for queen promotion or leave it null). Do not provide any other" +:+ nl +:+
  "text, commentary or formatting. Only output the JSON object." +:+ nl.

(** The two runtime services the wrapper calls: the remote model
    ([ai.models.generateContent], which may reject) and [JSON.parse]
    (which throws a SyntaxError on text that is not JSON). *)
Class Runtime := {
  generateContent : string -> Completion Response;
  JSON_parse : string -> Completion json
}.

Section Provider.

Context {R : Runtime}.

(** [response.text.trim()]: a TypeError when [text] is undefined. *)
Definition text_trim (response : Response) : Completion string :=
  match text response with
  | Some t => Return (trim t)
  | None => Throw "TypeError: Cannot read properties of undefined"
  end.

(** The inner [try] block.  Its value is the object of [return moveObj],
    or [None] when control leaves the [if] and reaches [return null]. *)
Definition readMove (raw : string) : Completion (option MoveObj) :=
  parsed ← JSON_parse raw;
  pfrom ← getProp parsed "from";
  match pfrom with
  | Some (JString f) =>
      pto ← getProp parsed "to";
      match pto with
      | Some (JString t) =>
          ppromotion ← getProp parsed "promotion";
          let moveObj := {| from := f; to := t; promotion := None |} in
          match ppromotion with
          | Some (JString pr) =>
              if decide (pr = "") then Return (Some moveObj)
              else Return (Some {| from := from moveObj; to := to moveObj;
                                   promotion := Some pr |})
          | _ => Return (Some moveObj)
          end
      | _ => Return None
      end
  | _ => Return None
  end.

Definition getAiMoveJson (fen : string) (player : Color)
    (legalMoves : list string) : Completion (option MoveObj) :=
  let turn := match player with w => "White" | b => "Black" end in
  let legalMovesList := join ", " legalMoves in
  let prompt := jsonPrompt fen turn legalMovesList in
  try_catch
    (response ← generateContent prompt;
     raw ← text_trim response;
     try_catch (readMove raw) (fun err => Return None))
    (fun error => Return None).

End Provider.

(** ** hooks/useChessGame *)

Inductive AiMode := gemini | random.

#[global] Instance AiMode_eq_dec : EqDecision AiMode.
Proof. solve_decision. Defined.

(** The optional argument of the hook, every field optional. *)
Record Options := {
  opt_aiMode : option AiMode;
  opt_maxGameMoves : option nat;
  opt_maxInvalidMoves : option nat
}.

Definition thinkingMessages : list string :=
  [ "Contemplating the optimal sequence...";
    "Calculating millions of variations...";
    "Analyzing positional nuances...";
    "Evaluating tactical possibilities...";
    "Accessing grandmaster knowledge banks...";
    "Predicting your strategy..." ].

(** A value of [Math.random()]: a fraction in the interval [0, 1). *)
Record Random := {
  rnd_num : nat;
  rnd_den : nat;
  rnd_lt : rnd_num < rnd_den
}.

(** [Math.floor(Math.random() * n)], the product taken exactly (in
    JavaScript the product of the two doubles is rounded to 53 bits). *)
Definition randomIndex (x : Random) (n : nat) : nat :=
  (rnd_num x * n) `div` rnd_den x.

(** [moves[Math.floor(Math.random() * moves.length)]]: an element of the
    array, or [undefined] when the array is empty. *)
Definition pickRandom (moves : list string) (x : Random) : MoveArg :=
  match moves !! randomIndex x (length moves) with
  | Some m => mv_string m
  | None => mv_undefined
  end.

(** JavaScript truthiness of the value of [moveToMake]. *)
Definition truthy (m : MoveArg) : bool :=
  match m with
  | mv_null | mv_undefined => false
  | mv_string s => negb (bool_decide (s = ""))
  | mv_object _ => true
  end.

Definition is_null (m : MoveArg) : bool :=
  match m with mv_null => true | _ => false end.

(** Truthiness of [manualGameStatus]: an object or [null]. *)
Definition is_set {A} (o : option A) : bool :=
  match o with Some _ => true | None => false end.

Section Hook.

Context {E : Chess.Instance} {R : Runtime}.

(** The argument of [useChessGame]. *)
Variable options : option Options.

Definition MAX_GAME_MOVES : nat := default 200 (options ≫= opt_maxGameMoves).
Definition MAX_INVALID_MOVES : nat := default 3 (options ≫= opt_maxInvalidMoves).
Definition aiMode : AiMode := default gemini (options ≫= opt_aiMode).

(** The state variables of the hook.  [game] holds the content of the
    chess.js instance the state variable refers to. *)
Record HookState := {
  game : Chess.position;
  fen : string;
  history : list string;
  selectedSquare : option Square;
  isAiThinking : bool;
  aiThinkingMessage : string;
  materialCount : Material;
  invalidMoveCount : nat;
  manualGameStatus : option GameStatus
}.

(** The values given to [useState] on the first render. *)
Definition initialState : HookState := {|
  game := Chess.new;
  fen := Chess.fen Chess.new;
  history := [];
  selectedSquare := None;
  isAiThinking := false;
  aiThinkingMessage := default "" (thinkingMessages !! 0);
  materialCount := {| white := 0; black := 0 |};
  invalidMoveCount := 0;
  manualGameStatus := None
|}.

(** State setters.  [setGame] also stands for the in-place mutation of the
    instance by [game.move]. *)
Definition setGame (v : Chess.position) (s : HookState) : HookState :=
  {| game := v; fen := fen s; history := history s;
     selectedSquare := selectedSquare s; isAiThinking := isAiThinking s;
     aiThinkingMessage := aiThinkingMessage s;
     materialCount := materialCount s;
     invalidMoveCount := invalidMoveCount s;
     manualGameStatus := manualGameStatus s |}.

Definition setFen (v : string) (s : HookState) : HookState :=
  {| game := game s; fen := v; history := history s;
     selectedSquare := selectedSquare s; isAiThinking := isAiThinking s;
     aiThinkingMessage := aiThinkingMessage s;
     materialCount := materialCount s;
     invalidMoveCount := invalidMoveCount s;
     manualGameStatus := manualGameStatus s |}.

Definition setHistory (v : list string) (s : HookState) : HookState :=
  {| game := game s; fen := fen s; history := v;
     selectedSquare := selectedSquare s; isAiThinking := isAiThinking s;
     aiThinkingMessage := aiThinkingMessage s;
     materialCount := materialCount s;
     invalidMoveCount := invalidMoveCount s;
     manualGameStatus := manualGameStatus s |}.

Definition setSelectedSquare (v : option Square) (s : HookState) : HookState :=
  {| game := game s; fen := fen s; history := history s;
     selectedSquare := v; isAiThinking := isAiThinking s;
     aiThinkingMessage := aiThinkingMessage s;
     materialCount := materialCount s;
     invalidMoveCount := invalidMoveCount s;
     manualGameStatus := manualGameStatus s |}.

Definition setIsAiThinking (v : bool) (s : HookState) : HookState :=
  {| game := game s; fen := fen s; history := history s;
     selectedSquare := selectedSquare s; isAiThinking := v;
     aiThinkingMessage := aiThinkingMessage s;
     materialCount := materialCount s;
     invalidMoveCount := invalidMoveCount s;
     manualGameStatus := manualGameStatus s |}.

Definition setMaterialCount (v : Material) (s : HookState) : HookState :=
  {| game := game s; fen := fen s; history := history s;
     selectedSquare := selectedSquare s; isAiThinking := isAiThinking s;
     aiThinkingMessage := aiThinkingMessage s;
     materialCount := v;
     invalidMoveCount := invalidMoveCount s;
     manualGameStatus := manualGameStatus s |}.

(** [setInvalidMoveCount(prev => f(prev))]. *)
Definition setInvalidMoveCount (f : nat -> nat) (s : HookState) : HookState :=
  {| game := game s; fen := fen s; history := history s;
     selectedSquare := selectedSquare s; isAiThinking := isAiThinking s;
     aiThinkingMessage := aiThinkingMessage s;
     materialCount := materialCount s;
     invalidMoveCount := f (invalidMoveCount s);
     manualGameStatus := manualGameStatus s |}.

Definition setManualGameStatus (v : option GameStatus) (s : HookState)
    : HookState :=
  {| game := game s; fen := fen s; history := history s;
     selectedSquare := selectedSquare s; isAiThinking := isAiThinking s;
     aiThinkingMessage := aiThinkingMessage s;
     materialCount := materialCount s;
     invalidMoveCount := invalidMoveCount s;
     manualGameStatus := v |}.

(** *** Status resolution ([gameStatus]) *)

Definition statusCheckmate (win : Winner) : GameStatus :=
  {| isCheckmate := true; isStalemate := false; isDraw := false;
     winner := Some win; reason := "Checkmate" |}.

Definition statusStalemate : GameStatus :=
  {| isCheckmate := false; isStalemate := true; isDraw := true;
     winner := Some winner_draw; reason := "Stalemate" |}.

Definition statusDraw (why : string) : GameStatus :=
  {| isCheckmate := false; isStalemate := false; isDraw := true;
     winner := Some winner_draw; reason := why |}.

Definition statusInProgress : GameStatus :=
  {| isCheckmate := false; isStalemate := false; isDraw := false;
     winner := None; reason := "" |}.

(** The reason of an engine-reported draw: two assignments in sequence, the
    later one overwriting the earlier. *)
Definition drawReason (g : Chess.position) : string :=
  let reason := "Draw" in
  let reason :=
    if Chess.in_threefold_repetition g then "Threefold Repetition" else reason in
  let reason :=
    if Chess.insufficient_material g then "Insufficient Material" else reason in
  reason.

Definition gameStatus (s : HookState) : GameStatus :=
  match manualGameStatus s with
  | Some manual => manual
  | None =>
      if Chess.in_checkmate (game s) then
        statusCheckmate
          (if decide (Chess.turn (game s) = w) then winner_b else winner_w)
      else if Chess.in_stalemate (game s) then statusStalemate
      else if Chess.in_draw (game s) then statusDraw (drawReason (game s))
      else statusInProgress
  end.

Definition possibleMoves (s : HookState) : list PossibleMove :=
  match selectedSquare s with
  | Some sq =>
      if decide (sq = "") then []
      else (fun mv => {| pm_to := vm_to mv; pm_flags := vm_flags mv |})
             <$> Chess.moves_square (game s) sq
  | None => []
  end.

(** *** Applying a move ([makeMove]) *)

Definition makeMove (mv : MoveArg) (s : HookState) : bool * HookState :=
  match Chess.move (game s) mv with
  | Some g' =>
      let s := setGame g' s in
      let s := setFen (Chess.fen g') s in
      let s := setHistory (Chess.history g') s in
      let boardArr := Chess.board g' in
      let s := setMaterialCount (computeMaterialCount boardArr) s in
      (true, s)
  | None => (false, s)
  end.

(** *** The AI turn ([makeAiMove]) *)

(** The list handed to the provider: [from + to + (promotion or '')]. *)
Definition legalMovesUci (g : Chess.position) : list string :=
  (fun m => vm_from m +:+ vm_to m +:+ default "" (vm_promotion m))
    <$> Chess.moves_verbose g.

(** The last statement of the [try] block: apply [moveToMake] when it is
    truthy; when the engine rejects it, count the attempt and play a random
    move instead. *)
Definition applyMoveToMake (moveToMake : MoveArg) (x2 : Random)
    (s : HookState) : HookState :=
  if truthy moveToMake then
    let '(moveResult, s) := makeMove moveToMake s in
    if negb moveResult then
      let s := setInvalidMoveCount (fun prev => prev + 1) s in
      let moves := Chess.moves (game s) in
      let randomMove := pickRandom moves x2 in
      (makeMove randomMove s).2
    else s
  else s.

(** The [try] block.  The methods of the engine are total, so the awaited
    provider call is the only step that can throw, and it comes before every
    state update of the block: on [Throw] the state is the one the block
    started with.  [x1] and [x2] are the two values [Math.random()] may be
    asked for. *)
Definition aiTryBlock (x1 x2 : Random) (s : HookState) : Completion HookState :=
  '(moveToMake, s) ←
    (if decide (aiMode = gemini) then
       let legalMoves := legalMovesUci (game s) in
       aiMoveJson ← getAiMoveJson (Chess.fen (game s)) b legalMoves;
       match aiMoveJson with
       | Some m => Return (mv_object m, s)
       | None => Return (mv_null, setInvalidMoveCount (fun prev => prev + 1) s)
       end
     else Return (mv_null, s));
  let moveToMake :=
    if bool_decide (aiMode = random) || is_null moveToMake then
      let moves := Chess.moves (game s) in
      let randomMove := pickRandom moves x1 in
      randomMove
    else moveToMake in
  Return (applyMoveToMake moveToMake x2 s).

(** [x3] is the value of [Math.random()] drawn by the [catch] block. *)
Definition makeAiMove (x1 x2 x3 : Random) (s : HookState) : HookState :=
  if bool_decide (Chess.turn (game s) = b)
     && negb (isCheckmate (gameStatus s))
     && negb (isDraw (gameStatus s))
     && negb (is_set (manualGameStatus s))
  then
    let s := setIsAiThinking true s in
    let s :=
      match aiTryBlock x1 x2 s with
      | Return s' => s'
      | Throw error =>
          let s := setInvalidMoveCount (fun prev => prev + 1) s in
          let moves := Chess.moves (game s) in
          let randomMove := pickRandom moves x3 in
          (makeMove randomMove s).2
      end in
    setIsAiThinking false s
  else s.

(** *** The click handler ([handleSquareClick]) *)

Definition handleSquareClick (square : Square) (s : HookState) : HookState :=
  if negb (bool_decide (Chess.turn (game s) = w))
     || isCheckmate (gameStatus s)
     || isDraw (gameStatus s)
     || is_set (manualGameStatus s)
  then s
  else
    match selectedSquare s with
    | Some sel =>
        if decide (sel = "") then
          if bool_decide (0 < length (Chess.moves_square (game s) square))
          then setSelectedSquare (Some square) s else s
        else
          let '(moveSuccess, s) :=
            makeMove (mv_object {| from := sel; to := square;
                                   promotion := Some "q" |}) s in
          if negb moveSuccess then setSelectedSquare (Some square) s
          else setSelectedSquare None s
    | None =>
        let movesForSquare := Chess.moves_square (game s) square in
        if bool_decide (0 < length movesForSquare)
        then setSelectedSquare (Some square) s else s
    end.

(** *** Reset ([resetGame]) *)

Definition resetGame (s : HookState) : HookState :=
  let newGame := Chess.new in
  let s := setGame newGame s in
  let s := setFen (Chess.fen newGame) s in
  let s := setHistory [] s in
  let s := setSelectedSquare None s in
  let s := setIsAiThinking false s in
  let s := setManualGameStatus None s in
  let s := setInvalidMoveCount (fun _ => 0) s in
  let boardArr := Chess.board newGame in
  setMaterialCount (computeMaterialCount boardArr) s.

(** *** The limit watcher (the last effect of the hook) *)

Definition statusForfeit : GameStatus :=
  {| isCheckmate := false; isStalemate := false; isDraw := false;
     winner := Some winner_w;
     reason := "Gemini forfeited after too many invalid moves" |}.

Definition statusMaxMoves : GameStatus :=
  {| isCheckmate := false; isStalemate := false; isDraw := true;
     winner := Some winner_draw; reason := "Max moves reached" |}.

(** Both conditions read the state variables of the render the effect
    belongs to ([s]); each [setManualGameStatus(value)] is queued, and a
    later queued value replaces an earlier one. *)
Definition limitWatcher (s : HookState) : HookState :=
  let queued := s in
  let queued :=
    if negb (is_set (manualGameStatus s))
       && bool_decide (MAX_INVALID_MOVES <= invalidMoveCount s)
    then setManualGameStatus (Some statusForfeit) queued else queued in
  let queued :=
    if negb (is_set (manualGameStatus s))
       && bool_decide (MAX_GAME_MOVES <= length (history s))
    then setManualGameStatus (Some statusMaxMoves) queued else queued in
  queued.

(** *** The session as a transition system

    What can happen to a mounted hook: the user clicks a square, the timer
    runs an AI turn, the limit watcher runs after a render, the user resets.
    Here a turn is one event; the part "The AI turn across its await" has
    the events of a turn that suspends. *)
Inductive Event :=
| Click (square : Square)
| AiTurn (x1 x2 x3 : Random)
| Watch
| Reset.

Definition applyEvent (s : HookState) (e : Event) : HookState :=
  match e with
  | Click square => handleSquareClick square s
  | AiTurn x1 x2 x3 => makeAiMove x1 x2 x3 s
  | Watch => limitWatcher s
  | Reset => resetGame s
  end.

Definition run (events : list Event) (s : HookState) : HookState :=
  foldl applyEvent s events.

Inductive reachable : HookState -> Prop :=
| reachable_init : reachable initialState
| reachable_step s e : reachable s -> reachable (applyEvent s e).

Definition is_reset (e : Event) : bool :=
  match e with Reset => true | _ => false end.

End Hook.

Arguments HookState E : clear implicits.

(** ** A scripted rules engine

    An engine for running the hook on explicit games: a position is a node
    of a finite game tree that stores the answers of the engine at that
    position and, for every move it accepts, the position the move leads
    to.  [move] looks its argument up the way chess.js does: a string by its
    notation, an object by [from] and [to], and by [promotion] when the
    candidate is a promotion. *)
Module Script.

Record Answers := {
  a_fen : string;
  a_turn : Color;
  a_in_check : bool;
  a_in_checkmate : bool;
  a_in_stalemate : bool;
  a_in_draw : bool;
  a_in_threefold_repetition : bool;
  a_insufficient_material : bool;
  a_history : list string;
  a_board : Board
}.

Inductive Tree := Node (answers : Answers) (next : list (VerboseMove * Tree)).

Definition answers (t : Tree) : Answers := match t with Node a _ => a end.

Definition next (t : Tree) : list (VerboseMove * Tree) :=
  match t with Node _ n => n end.

Definition accepts (arg : MoveArg) (candidate : VerboseMove) : bool :=
  match arg with
  | mv_string san => bool_decide (vm_san candidate = san)
  | mv_object m =>
      bool_decide (from m = vm_from candidate)
      && bool_decide (to m = vm_to candidate)
      && match vm_promotion candidate with
         | None => true
         | Some pr => bool_decide (promotion m = Some pr)
         end
  | mv_null | mv_undefined => false
  end.

Fixpoint lookupMove (arg : MoveArg) (n : list (VerboseMove * Tree)) : option Tree :=
  match n with
  | [] => None
  | (candidate, t) :: rest =>
      if accepts arg candidate then Some t else lookupMove arg rest
  end.

Definition engine (start : Tree) : Chess.Instance := {|
  Chess.position := Tree;
  Chess.new := start;
  Chess.fen t := a_fen (answers t);
  Chess.turn t := a_turn (answers t);
  Chess.move t arg := lookupMove arg (next t);
  Chess.moves t := (fun '(candidate, _) => vm_san candidate) <$> next t;
  Chess.moves_verbose t := fst <$> next t;
  Chess.moves_square t sq :=
    filter (fun candidate => vm_from candidate = sq) (fst <$> next t);
  Chess.in_check t := a_in_check (answers t);
  Chess.in_checkmate t := a_in_checkmate (answers t);
  Chess.in_stalemate t := a_in_stalemate (answers t);
  Chess.in_draw t := a_in_draw (answers t);
  Chess.in_threefold_repetition t := a_in_threefold_repetition (answers t);
  Chess.insufficient_material t := a_insufficient_material (answers t);
  Chess.history t := a_history (answers t);
  Chess.board t := a_board (answers t)
|}.

(** Boards of scripted positions are written as piece relocations. *)
Definition squareCoords (sq : string) : option (nat * nat) :=
  match sq with
  | String f (String r EmptyString) =>
      Some (8 - (Ascii.nat_of_ascii r - 48), Ascii.nat_of_ascii f - 97)
  | _ => None
  end.

Definition pieceAt (bd : Board) (rc : nat * nat) : option Piece :=
  row ← bd !! rc.1; sq ← row !! rc.2; sq.

Definition place (rc : nat * nat) (v : option Piece) (bd : Board) : Board :=
  alter (fun row => <[rc.2 := v]> row) rc.1 bd.

Definition relocate (src dst : string) (bd : Board) : Board :=
  match squareCoords src, squareCoords dst with
  | Some s, Some d => place s None (place d (pieceAt bd s) bd)
  | _, _ => bd
  end.

(** A position in which nothing special is reported. *)
Definition quiet (f : string) (c : Color) (h : list string) (bd : Board) : Answers :=
  {| a_fen := f; a_turn := c; a_in_check := false; a_in_checkmate := false;
     a_in_stalemate := false; a_in_draw := false;
     a_in_threefold_repetition := false; a_insufficient_material := false;
     a_history := h; a_board := bd |}.

Definition step (src dst san : string) : VerboseMove :=
  {| vm_from := src; vm_to := dst; vm_promotion := None;
     vm_flags := "n"; vm_san := san |}.

(** The line 1. e4 e5 2. Nf3 Nc6 3. Bc4 Bc5, with the Sicilian reply 1... c5
    as a second answer to 1. e4. *)
Definition board1 : Board := relocate "e2" "e4" startingBoard.
Definition board2 : Board := relocate "e7" "e5" board1.
Definition board3 : Board := relocate "g1" "f3" board2.
Definition board4 : Board := relocate "b8" "c6" board3.
Definition board5 : Board := relocate "f1" "c4" board4.
Definition board6 : Board := relocate "f8" "c5" board5.

Definition pos6 : Tree :=
  Node (quiet "r1bqk1nr/pppp1ppp/2n5/2b1p3/2B1P3/5N2/PPPP1PPP/RNBQK2R w KQkq - 4 4"
              w ["e4"; "e5"; "Nf3"; "Nc6"; "Bc4"; "Bc5"] board6) [].

Definition pos5 : Tree :=
  Node (quiet "r1bqkbnr/pppp1ppp/2n5/4p3/2B1P3/5N2/PPPP1PPP/RNBQK2R b KQkq - 3 3"
              b ["e4"; "e5"; "Nf3"; "Nc6"; "Bc4"] board5)
       [(step "f8" "c5" "Bc5", pos6)].

Definition pos4 : Tree :=
  Node (quiet "r1bqkbnr/pppp1ppp/2n5/4p3/4P3/5N2/PPPP1PPP/RNBQKB1R w KQkq - 2 3"
              w ["e4"; "e5"; "Nf3"; "Nc6"] board4)
       [(step "f1" "c4" "Bc4", pos5)].

Definition pos3 : Tree :=
  Node (quiet "rnbqkbnr/pppp1ppp/8/4p3/4P3/5N2/PPPP1PPP/RNBQKB1R b KQkq - 1 2"
              b ["e4"; "e5"; "Nf3"] board3)
       [(step "b8" "c6" "Nc6", pos4)].

Definition pos2 : Tree :=
  Node (quiet "rnbqkbnr/pppp1ppp/8/4p3/4P3/8/PPPP1PPP/RNBQKBNR w KQkq e6 0 2"
              w ["e4"; "e5"] board2)
       [(step "g1" "f3" "Nf3", pos3)].

Definition sicilian : Tree :=
  Node (quiet "rnbqkbnr/pp1ppppp/8/2p5/4P3/8/PPPP1PPP/RNBQKBNR w KQkq c6 0 2"
              w ["e4"; "c5"] (relocate "c7" "c5" board1)) [].

Definition pos1 : Tree :=
  Node (quiet "rnbqkbnr/pppppppp/8/8/4P3/8/PPPP1PPP/RNBQKBNR b KQkq e3 0 1"
              b ["e4"] board1)
       [(step "e7" "e5" "e5", pos2); (step "c7" "c5" "c5", sicilian)].

Definition pos0 : Tree :=
  Node (quiet "rnbqkbnr/pppppppp/8/8/8/8/PPPPPPPP/RNBQKBNR w KQkq - 0 1"
              w [] startingBoard)
       [(step "e2" "e4" "e4", pos1)].

(** Two bare kings, the position having occurred three times. *)
Definition bareKingsBoard : Board :=
  place (2, 4) (Some {| type := type_k; color := b |})
    (place (5, 4) (Some {| type := type_k; color := w |})
       (replicate 8 emptyRank)).

Definition bareKings : Tree :=
  Node {| a_fen := "8/8/4k3/8/8/4K3/8/8 w - - 8 60"; a_turn := w;
          a_in_check := false; a_in_checkmate := false;
          a_in_stalemate := false; a_in_draw := true;
          a_in_threefold_repetition := true;
          a_insufficient_material := true;
          a_history := []; a_board := bareKingsBoard |} [].

(** King and queen against king, Black to move and stalemated. *)
Definition stalemateBoard : Board :=
  place (0, 7) (Some {| type := type_k; color := b |})
    (place (1, 5) (Some {| type := type_q; color := w |})
       (place (2, 6) (Some {| type := type_k; color := w |})
          (replicate 8 emptyRank))).

Definition stalemated : Tree :=
  Node {| a_fen := "7k/5Q2/6K1/8/8/8/8/8 b - - 0 1"; a_turn := b;
          a_in_check := false; a_in_checkmate := false;
          a_in_stalemate := true; a_in_draw := true;
          a_in_threefold_repetition := false;
          a_insufficient_material := false;
          a_history := []; a_board := stalemateBoard |} [].

(** Providers: one whose transport always fails, and one that answers a
    fixed JSON text. *)
Definition failing (prompt : string) : Completion Response :=
  Throw "Error: fetch failed".

Definition replyText (src dst : string) : string :=
  "{" +:+ dquote +:+ "from" +:+ dquote +:+ ":" +:+ dquote +:+ src +:+ dquote +:+
  "," +:+ dquote +:+ "to" +:+ dquote +:+ ":" +:+ dquote +:+ dst +:+ dquote +:+ "}".

Definition answering (src dst : string) (prompt : string) : Completion Response :=
  Return {| text := Some (replyText src dst +:+ nl) |}.

(** A stand-in for [JSON.parse] that knows the texts of two replies. *)
Definition parseReply (raw : string) : Completion json :=
  if decide (raw = replyText "e7" "e5") then
    Return (JObject [("from", JString "e7"); ("to", JString "e5")])
  else if decide (raw = replyText "e7" "e4") then
    Return (JObject [("from", JString "e7"); ("to", JString "e4")])
  else Throw "SyntaxError".

Definition offline : Runtime :=
  {| generateContent := failing; JSON_parse := parseReply |}.

Definition replying (src dst : string) : Runtime :=
  {| generateContent := answering src dst; JSON_parse := parseReply |}.

Definition firstOf : Random :=
  {| rnd_num := 0; rnd_den := 1; rnd_lt := Nat.lt_0_1 |}.

End Script.

(** ** The properties, in the words of the specification

    The definitions of this part are not translations of code: each one
    writes down a notion the specification uses, to be compared with the
    code above. *)

Section Described.

Context {E : Chess.Instance} {R : Runtime}.

Variable options : option Options.

(** A string field of a parsed object. *)
Definition stringField (parsed : json) (key : string) : option string :=
  match parsed with
  | JObject members =>
      match member key members with
      | Some (JString v) => Some v
      | _ => None
      end
  | _ => None
  end.

(** The move a parsed response describes: string fields [from] and [to],
    and [promotion] only when it is a non-empty string. *)
Definition describedMove (parsed : json) : option MoveObj :=
  f ← stringField parsed "from";
  t ← stringField parsed "to";
  Some {| from := f; to := t;
          promotion := pr ← stringField parsed "promotion";
                       if decide (pr = "") then None else Some pr |}.

(** The answer expected of the provider wrapper: the described move when
    the provider call succeeds and its text parses, [null] in every other
    case. *)
Definition usableMove (fen : string) (player : Color)
    (legalMoves : list string) : option MoveObj :=
  let turn := match player with w => "White" | b => "Black" end in
  match generateContent (jsonPrompt fen turn (join ", " legalMoves)) with
  | Return response =>
      match text response with
      | Some t =>
          match JSON_parse (trim t) with
          | Return parsed => describedMove parsed
          | Throw _ => None
          end
      | None => None
      end
  | Throw _ => None
  end.

(** A negotiation call is an AI turn that passes its entry condition. *)
Definition negotiates (s : HookState E) : bool :=
  bool_decide (Chess.turn (game s) = b)
  && negb (isCheckmate (gameStatus s))
  && negb (isDraw (gameStatus s))
  && negb (is_set (manualGameStatus s)).

(** A failure of the negotiation: the provider is consulted and either
    returns no usable move or proposes a move the engine rejects. *)
Definition negotiationFails (s : HookState E) : bool :=
  match aiMode options with
  | random => false
  | gemini =>
      match usableMove (Chess.fen (game s)) b (legalMovesUci (game s)) with
      | None => true
      | Some m => negb (is_set (Chess.move (game s) (mv_object m)))
      end
  end.

(** The forfeit status as the specification words it. *)
Definition describedForfeit : GameStatus :=
  {| isCheckmate := false; isStalemate := false; isDraw := false;
     winner := Some winner_w;
     reason := "AI forfeited after too many invalid moves" |}.

(** The draw reason in the order the specification gives: threefold
    repetition, then insufficient material, then the generic reason. *)
Definition describedDrawReason (g : Chess.position) : string :=
  if Chess.in_threefold_repetition g then "Threefold Repetition"
  else if Chess.insufficient_material g then "Insufficient Material"
  else "Draw".

(** The five variants of a status, and the test by which the interface
    recognises each of them (GameInfo, [getStatusMessage]). *)
Inductive Variant :=
| InProgress | Checkmate | Stalemate | Draw | Forfeit.

#[global] Instance Variant_eq_dec : EqDecision Variant.
Proof. solve_decision. Defined.

Definition satisfies (st : GameStatus) (v : Variant) : bool :=
  match v with
  | Checkmate => isCheckmate st
  | Stalemate => isStalemate st
  | Draw => isDraw st
  | Forfeit =>
      negb (isCheckmate st) && negb (isStalemate st) && negb (isDraw st)
      && is_set (winner st)
  | InProgress =>
      negb (isCheckmate st) && negb (isStalemate st) && negb (isDraw st)
      && negb (is_set (winner st))
  end.

Definition variantsOf (st : GameStatus) : list Variant :=
  filter (fun v => satisfies st v = true)
         [InProgress; Checkmate; Stalemate; Draw; Forfeit].

(** The session fields of the specification's GameSession. *)
Definition sameSession (s s' : HookState E) : Prop :=
  game s' = game s
  /\ fen s' = fen s
  /\ history s' = history s
  /\ materialCount s' = materialCount s
  /\ invalidMoveCount s' = invalidMoveCount s
  /\ manualGameStatus s' = manualGameStatus s.

(** The material invariant of the specification. *)
Definition materialInSync (s : HookState E) : Prop :=
  materialCount s = computeMaterialCount (Chess.board (game s)).

End Described.

(** ** Scripted sessions *)
Module Scenario.

Import Script.

Definition E0 : Chess.Instance := engine pos0.

Definition defaults : option Options := None.

Definition tight : option Options :=
  Some {| opt_aiMode := None; opt_maxGameMoves := Some 2;
          opt_maxInvalidMoves := Some 1 |}.

Definition aiTurn : Event := AiTurn firstOf firstOf firstOf.

Definition fresh : HookState E0 := initialState.

(** 1. e4 played, Black to move. *)
Definition afterE4 : HookState E0 :=
  run (R := offline) defaults [Click "e2"; Click "e4"] fresh.

(** Three AI turns in a row with the provider unreachable. *)
Definition threeFailures : HookState E0 :=
  run (R := offline) defaults
    [Click "e2"; Click "e4"; aiTurn; Click "g1"; Click "f3"; aiTurn;
     Click "f1"; Click "c4"; aiTurn] fresh.

Definition forfeited : HookState E0 := limitWatcher defaults threeFailures.

(** With limits 1 and 2: one failed AI turn after 1. e4 meets both. *)
Definition bothLimits : HookState E0 :=
  run (R := offline) tight [Click "e2"; Click "e4"; aiTurn] fresh.

Definition atBareKings : HookState E0 := setGame (E := E0) bareKings fresh.

Definition atStalemate : HookState E0 := setGame (E := E0) stalemated fresh.

End Scenario.

(** ** The rest of the sources

    The parts of the repository around the session controller: the second
    provider call of services/geminiService.ts, the status panel
    (components/GameInfo), the end-of-game dialog (components/GameOverModal),
    the sound choice and dialog condition of App.tsx, and the board view
    (components/Chessboard). *)

(** *** services/geminiService.ts, [getAiMove] *)

Definition sanPrompt (fen turn : string) : string :=
  nl +:+
  "You are a world-class chess engine, Super Grandmaster Gemini, with an ELO of 2300. Your task is to analyze the given chess position and determine the best possible move." +:+ nl +:+
  nl +:+
  "The current board state is represented in Forsyth-Edwards Notation (FEN)." +:+ nl +:+
  "FEN: " +:+ dquote +:+ fen +:+ dquote +:+ nl +:+
  nl +:+
  "It is " +:+ turn +:+ "'s turn to move." +:+ nl +:+
  nl +:+
  "Analyze the position carefully, considering tactical possibilities, positional advantages, and long-term strategy." +:+ nl +:+
  nl +:+
  "Your response MUST be ONLY the next move in Standard Algebraic Notation (SAN). For example: " +:+
  dquote +:+ "e4" +:+ dquote +:+ ", " +:+ dquote +:+ "Nf3" +:+ dquote +:+ ", " +:+
  dquote +:+ "Qxg7#" +:+ dquote +:+ ". " +:+ nl +:+
  "Do not provide any explanation, commentary, or any other text. Do not wrap the move in markdown or any other formatting." +:+ nl +:+
  "Just the move." +:+ nl.

(** The handler of [getAiMove] replaces whatever was thrown by a new
    [Error] with a fixed message. *)
Definition getAiMove {R : Runtime} (fen : string) (player : Color)
    : Completion string :=
  let turn := match player with w => "White" | b => "Black" end in
  let prompt := sanPrompt fen turn in
  try_catch
    (response ← generateContent prompt;
     move ← text_trim response;
     Return move)
    (fun error => Throw "Error: Failed to get move from AI").

(** *** components/GameInfo *)

(** [getStatusMessage]; [turn] and [aiMode] are properties of the panel. *)
Definition getStatusMessage (gameStatus : GameStatus) (turn : Color)
    (mode : AiMode) : string :=
  if isCheckmate gameStatus then
    (if decide (winner gameStatus = Some winner_w)
     then "You Win!" else "Gemini Wins!")
  else if isStalemate gameStatus then "Stalemate"
  else if isDraw gameStatus then "Draw by " +:+ reason gameStatus
  else if negb (isCheckmate gameStatus) && negb (isStalemate gameStatus)
          && negb (isDraw gameStatus) && is_set (winner gameStatus) then
    (if decide (winner gameStatus = Some winner_w)
     then "Gemini forfeited" else "You forfeited")
  else
    (if decide (turn = w) then "Your Turn"
     else (if decide (mode = gemini) then "Gemini" else "Random") +:+ "'s Turn").

Definition isPlayerTurn (gameStatus : GameStatus) (turn : Color) : bool :=
  bool_decide (turn = w)
  && negb (isCheckmate gameStatus) && negb (isDraw gameStatus).

(** A line of the move list: its key, its number, the move at the even
    index and the move after it, or ['...']. *)
Record MoveRow := {
  row_key : nat;
  row_number : nat;
  row_first : string;
  row_second : string
}.

(** [history[index + 1] || '...']: the placeholder replaces [undefined]
    and the empty string. *)
Definition secondOf (history : list string) (index : nat) : string :=
  match history !! (index + 1) with
  | Some m => if decide (m = "") then "..." else m
  | None => "..."
  end.

(** The callback of [history.reduce]: a line is pushed at even indices. *)
Definition pushRow (history : list string) (acc : list MoveRow)
    (entry : nat * string) : list MoveRow :=
  let '(index, move) := entry in
  if decide (index `mod` 2 = 0) then
    acc ++ [ {| row_key := index `div` 2; row_number := index `div` 2 + 1;
                row_first := move; row_second := secondOf history index |} ]
  else acc.

Definition moveRows (history : list string) : list MoveRow :=
  foldl (pushRow history) [] (imap pair history).

(** *** components/GameOverModal *)

Definition getTitle (status : GameStatus) : string :=
  if isCheckmate status then
    (if decide (winner status = Some winner_w) then "Victory!" else "Defeat!")
  else if negb (isDraw status) && negb (isStalemate status)
          && is_set (winner status) then
    (if decide (winner status = Some winner_w) then "Victory!" else "Defeat!")
  else "Game Over".

Definition getMessage (status : GameStatus) : string :=
  if isCheckmate status then
    "You have "
    +:+ (if decide (winner status = Some winner_w)
         then "defeated" else "been defeated by")
    +:+ " the Grandmaster!"
  else if negb (isDraw status) && negb (isStalemate status)
          && is_set (winner status) then
    reason status
  else "The game is a draw due to " +:+ reason status +:+ ".".

(** *** App.tsx *)

(** The condition under which the dialog is rendered. *)
Definition showsGameOverModal (gameStatus : GameStatus) : bool :=
  isCheckmate gameStatus || isStalemate gameStatus || isDraw gameStatus.

Inductive Sound := sound_move | sound_capture | sound_check | sound_end.

#[global] Instance Sound_eq_dec : EqDecision Sound.
Proof. solve_decision. Defined.

(** [String.prototype.includes]. *)
Fixpoint includes (sub s : string) : bool :=
  String.prefix sub s
  || match s with
     | String _ rest => includes sub rest
     | EmptyString => false
     end.

(** [playSound]: nothing when muted. *)
Definition playSound (isMuted : bool) (soundType : Sound) : option Sound :=
  if isMuted then None else Some soundType.

(** The effect that picks a sound after the history or the status changed;
    the value is the sound whose audio is started, if any. *)
Definition soundEffect {E : Chess.Instance} (isMuted : bool)
    (s : HookState E) : option Sound :=
  if isCheckmate (gameStatus s) || isStalemate (gameStatus s)
     || isDraw (gameStatus s) then playSound isMuted sound_end
  else if Chess.in_check (game s) then playSound isMuted sound_check
  else if bool_decide (0 < length (history s)) then
    match history s !! (length (history s) - 1) with
    | Some lastMove =>
        if includes "x" lastMove then playSound isMuted sound_capture
        else playSound isMuted sound_move
    | None => None
    end
  else None.

(** *** components/Chessboard *)

Definition ranks : list string := ["8"; "7"; "6"; "5"; "4"; "3"; "2"; "1"].
Definition files : list string := ["a"; "b"; "c"; "d"; "e"; "f"; "g"; "h"].

(** What [fenToBoard] stores for a piece: the character in lower case,
    unchecked, and the colour. *)
Record Glyph := { glyph_type : string; glyph_color : Color }.

(** An entry of a row: [null], a hole left when a write beyond the end
    extended the array, or a piece. *)
Inductive Cell := cell_null | cell_hole | cell_piece (g : Glyph).

#[global] Instance Glyph_eq_dec : EqDecision Glyph.
Proof. solve_decision. Defined.

#[global] Instance Cell_eq_dec : EqDecision Cell.
Proof. solve_decision. Defined.

(** [row[i] = v] on a JavaScript array: inside the array the entry is
    replaced, beyond its end the array grows and the skipped entries are
    holes. *)
Definition js_assign (i : nat) (v : Cell) (row : list Cell) : list Cell :=
  if decide (i < length row) then <[i := v]> row
  else row ++ replicate (i - length row) cell_hole ++ [v].

(** Characters (of the ASCII range, as in a FEN). *)
Definition code (c : Ascii.ascii) : nat := Ascii.nat_of_ascii c.

Definition toUpperCase (c : Ascii.ascii) : Ascii.ascii :=
  if bool_decide (97 <= code c <= 122) then Ascii.ascii_of_nat (code c - 32)
  else c.

Definition toLowerCase (c : Ascii.ascii) : Ascii.ascii :=
  if bool_decide (65 <= code c <= 90) then Ascii.ascii_of_nat (code c + 32)
  else c.

(** [/\d/.test(char)] and [parseInt(char, 10)] on a digit. *)
Definition isDigit (c : Ascii.ascii) : bool :=
  bool_decide (48 <= code c <= 57).

Definition parseInt (c : Ascii.ascii) : nat := code c - 48.

(** [fen.split(' ')[0]]: the text before the first space. *)
Fixpoint firstField (fen : string) : string :=
  match fen with
  | EmptyString => EmptyString
  | String c rest =>
      if decide (code c = 32) then EmptyString else String c (firstField rest)
  end.

(** The variables of the loop of [fenToBoard]. *)
Record FenLoop := {
  fl_rank : nat;
  fl_file : nat;
  fl_board : list (list Cell)
}.

(** One round of the loop.  [board[rank][file] = ...] throws when [rank] is
    not a row of the array. *)
Definition fenStep (st : FenLoop) (char : Ascii.ascii) : Completion FenLoop :=
  if decide (code char = 47) then
    Return {| fl_rank := fl_rank st + 1; fl_file := 0;
              fl_board := fl_board st |}
  else if isDigit char then
    Return {| fl_rank := fl_rank st; fl_file := fl_file st + parseInt char;
              fl_board := fl_board st |}
  else
    let color := if decide (char = toUpperCase char) then w else b in
    let type := String (toLowerCase char) EmptyString in
    match fl_board st !! fl_rank st with
    | Some row =>
        Return {| fl_rank := fl_rank st; fl_file := fl_file st + 1;
                  fl_board :=
                    <[fl_rank st :=
                        js_assign (fl_file st)
                          (cell_piece {| glyph_type := type;
                                         glyph_color := color |}) row]>
                      (fl_board st) |}
    | None => Throw "TypeError: Cannot set properties of undefined"
    end.

Fixpoint fenLoop (position : string) (st : FenLoop) : Completion FenLoop :=
  match position with
  | EmptyString => Return st
  | String char rest => st' ← fenStep st char; fenLoop rest st'
  end.

Definition fenToBoard (fen : string) : Completion (list (list Cell)) :=
  let board := replicate 8 (replicate 8 cell_null) in
  let position := firstField fen in
  st ← fenLoop position {| fl_rank := 0; fl_file := 0; fl_board := board |};
  Return (fl_board st).

(** The name of the square of a cell; an index outside the arrays reads
    [undefined], which the template prints as such. *)
Definition squareName (rankIndex fileIndex : nat) : Square :=
  default "undefined" (files !! fileIndex)
  +:+ default "undefined" (ranks !! rankIndex).

Definition isLight (rankIndex fileIndex : nat) : bool :=
  negb (bool_decide ((rankIndex + fileIndex) `mod` 2 = 0)).

Definition isSelected (square : Square) (selectedSquare : option Square) : bool :=
  bool_decide (selectedSquare = Some square).

(** [possibleMoveTos.has(square)]. *)
Definition isPossibleMove (possibleMoves : list PossibleMove)
    (square : Square) : bool :=
  bool_decide (square ∈ pm_to <$> possibleMoves).

(** *** hooks/useChessGame, the remaining effects *)

(** The message the rotation effect sets every two seconds. *)
Definition nextThinkingMessage (x : Random) : option string :=
  thinkingMessages !! randomIndex x (length thinkingMessages).

(** The condition under which the turn effect schedules [makeAiMove]. *)
Definition schedulesAiMove {E : Chess.Instance} (s : HookState E) : bool :=
  bool_decide (Chess.turn (game s) = b) && negb (is_set (manualGameStatus s)).

(** ** Notions used to state properties of the rest of the sources

    As in the part on the specification's words, none of these definitions
    translates code of the repository. *)

(** The value [computeMaterialCount] adds to the count of colour [c] for
    one square. *)
Definition squareValue (c : Color) (sq : option Piece) : nat :=
  match sq with
  | Some piece =>
      if decide (color piece = c)
      then default 0 (pieceValues !! type_key (type piece)) else 0
  | None => 0
  end.

(** The piece-placement field of Forsyth-Edwards notation for a board, the
    first field of the text a rules engine gives for a position: the rows
    from the eighth rank down, separated by a slash; in a row, a piece is
    its letter (upper case for White) and a run of empty squares is its
    length as a digit. *)
Definition pieceLetter (p : Piece) : Ascii.ascii :=
  let lower :=
    match type p with
    | type_p => 112 | type_n => 110 | type_b => 98
    | type_r => 114 | type_q => 113 | type_k => 107
    end in
  Ascii.ascii_of_nat (match color p with w => lower - 32 | b => lower end).

Definition runDigit (empties : nat) : string :=
  if decide (empties = 0) then EmptyString
  else String (Ascii.ascii_of_nat (48 + empties)) EmptyString.

Fixpoint rankField (row : list (option Piece)) (empties : nat) : string :=
  match row with
  | [] => runDigit empties
  | None :: rest => rankField rest (S empties)
  | Some p :: rest =>
      runDigit empties +:+ String (pieceLetter p) (rankField rest 0)
  end.

Definition placement (board : list (list (option Piece))) : string :=
  join "/" ((fun row => rankField row 0) <$> board).

(** The cell that shows a square of the engine's board. *)
Definition cellOf (sq : option Piece) : Cell :=
  match sq with
  | Some p =>
      cell_piece {| glyph_type := type_key (type p); glyph_color := color p |}
  | None => cell_null
  end.

Definition cellsOf (board : list (list (option Piece))) : list (list Cell) :=
  (fun row : list (option Piece) => cellOf <$> row) <$> board.

Fixpoint spaceFree (s : string) : bool :=
  match s with
  | EmptyString => true
  | String c rest => negb (bool_decide (code c = 32)) && spaceFree rest
  end.

(** The number of slashes of a text. *)
Fixpoint slashes (s : string) : nat :=
  match s with
  | EmptyString => 0
  | String c rest => (if decide (code c = 47) then 1 else 0) + slashes rest
  end.

(** The two texts a line of the move list shows. *)
Definition rowTexts (r : MoveRow) : list string := [row_first r; row_second r].

(** The lines of the move list for the moves from index [k] on, two moves
    to a line. *)
Fixpoint rowsFrom (k : nat) (moves : list string) : list MoveRow :=
  match moves with
  | a :: c :: rest =>
      {| row_key := k `div` 2; row_number := k `div` 2 + 1; row_first := a;
         row_second := if decide (c = "") then "..." else c |}
      :: rowsFrom (k + 2) rest
  | [a] =>
      [ {| row_key := k `div` 2; row_number := k `div` 2 + 1; row_first := a;
           row_second := "..." |} ]
  | [] => []
  end.

(** The pieces of [row] put on the cells of [cells] from index [k] on, the
    empty squares of [row] leaving their cell as it is. *)
Fixpoint writeRow (k : nat) (row : list (option Piece)) (cells : list Cell)
    : list Cell :=
  match row with
  | [] => cells
  | None :: rest => writeRow (S k) rest cells
  | Some p :: rest => writeRow (S k) rest (<[k := cellOf (Some p)]> cells)
  end.



Section Transitions.

Context {E : Chess.Instance}.

(** The position and the state variables that mirror it are as before. *)
Definition positionKept (s s' : HookState E) : Prop :=
  game s' = game s
  /\ fen s' = fen s
  /\ history s' = history s
  /\ materialCount s' = materialCount s.

(** The position advanced by one move the engine accepted, and the state
    variables that mirror it were read from the new position. *)
Definition oneMoveApplied (s s' : HookState E) : Prop :=
  exists mv g',
    Chess.move (game s) mv = Some g'
    /\ game s' = g'
    /\ fen s' = Chess.fen g'
    /\ history s' = Chess.history g'
    /\ materialCount s' = computeMaterialCount (Chess.board g').

End Transitions.

(** An engine that lists a move and rejects every move, to show what the
    hook does when the two answers disagree. *)
Definition listsButRejects : Chess.Instance := {|
  Chess.position := unit;
  Chess.new := tt;
  Chess.fen _ := "";
  Chess.turn _ := b;
  Chess.move _ _ := None;
  Chess.moves _ := ["e5"];
  Chess.moves_verbose _ := [];
  Chess.moves_square _ _ := [];
  Chess.in_check _ := false;
  Chess.in_checkmate _ := false;
  Chess.in_stalemate _ := false;
  Chess.in_draw _ := false;
  Chess.in_threefold_repetition _ := false;
  Chess.insufficient_material _ := false;
  Chess.history _ := [];
  Chess.board _ := []
|}.

(** ** The AI turn across its await

    [makeAiMove] is an async function: in 'gemini' mode it runs up to
    [await getAiMoveJson(...)], returns to React, and runs the rest when
    the provider has answered.  The rest runs in the closure of the call:
    [game] is the instance the state variable referred to when the turn
    started, also after a reset has put a new instance in the state
    variable; the setters write the state of the moment.  Nothing cancels a
    suspended turn.  In 'random' mode no [await] is reached and the turn
    runs to its end at once. *)

Section Suspension.

Context {E : Chess.Instance} {R : Runtime}.

Variable options : option Options.

(** The statements of the [try] block after the [await]; [game s] stands
    for the instance of the closure. *)
Definition aiAfterAwait (aiMoveJson : option MoveObj) (x1 x2 : Random)
    (s : HookState E) : HookState E :=
  let '(moveToMake, s) :=
    match aiMoveJson with
    | Some m => (mv_object m, s)
    | None => (mv_null, setInvalidMoveCount (fun prev => prev + 1) s)
    end in
  let moveToMake :=
    if bool_decide (aiMode options = random) || is_null moveToMake then
      let moves := Chess.moves (game s) in
      let randomMove := pickRandom moves x1 in
      randomMove
    else moveToMake in
  applyMoveToMake moveToMake x2 s.

(** The [catch] block. *)
Definition aiCatch (x3 : Random) (s : HookState E) : HookState E :=
  let s := setInvalidMoveCount (fun prev => prev + 1) s in
  let moves := Chess.moves (game s) in
  let randomMove := pickRandom moves x3 in
  (makeMove randomMove s).2.

(** What runs when the awaited call has settled with [answer]. *)
Definition aiTurnResume (answer : Completion (option MoveObj))
    (x1 x2 x3 : Random) (s : HookState E) : HookState E :=
  let s :=
    match answer with
    | Return aiMoveJson => aiAfterAwait aiMoveJson x1 x2 s
    | Throw error => aiCatch x3 s
    end in
  setIsAiThinking false s.

(** A suspended turn: the instance its closure holds ([None] for the
    instance the state variable refers to, [Some k] for the instance
    number [k] among those a reset has replaced) and the outcome of the
    call it awaits. *)
Record Pending := {
  p_game : option nat;
  p_answer : Completion (option MoveObj)
}.

(** A mounted hook: its state variables, the instances that resets have
    replaced (suspended turns may still hold them) and the suspended
    turns. *)
Record Session := {
  hook : HookState E;
  retired : list Chess.position;
  pending : list Pending
}.

Definition initialSession : Session :=
  {| hook := initialState; retired := []; pending := [] |}.

(** After a reset, a turn that held the current instance holds the
    instance that was just replaced, number [k]. *)
Definition retire (k : nat) (p : Pending) : Pending :=
  match p_game p with
  | None => {| p_game := Some k; p_answer := p_answer p |}
  | Some _ => p
  end.

Inductive AsyncEvent :=
| aClick (square : Square)
| aStart (x1 x2 x3 : Random)
| aResume (turn : nat) (x1 x2 x3 : Random)
| aWatch
| aReset.

(** The call of [makeAiMove]: in 'random' mode the whole turn, in 'gemini'
    mode the part before the [await]. *)
Definition startAiTurn (x1 x2 x3 : Random) (ses : Session) : Session :=
  match aiMode options with
  | random =>
      {| hook := makeAiMove options x1 x2 x3 (hook ses);
         retired := retired ses; pending := pending ses |}
  | gemini =>
      let s := hook ses in
      if bool_decide (Chess.turn (game s) = b)
         && negb (isCheckmate (gameStatus s))
         && negb (isDraw (gameStatus s))
         && negb (is_set (manualGameStatus s))
      then
        let legalMoves := legalMovesUci (game s) in
        {| hook := setIsAiThinking true s;
           retired := retired ses;
           pending :=
             (pending ses
              ++ [ {| p_game := None;
                      p_answer := getAiMoveJson (Chess.fen (game s)) b
                                    legalMoves |} ])%list |}
      else ses
  end.

(** The suspended turn number [turn] runs to its end.  When its closure
    holds a replaced instance, the moves go to that instance and the state
    variable [game] keeps the current one. *)
Definition resumeAiTurn (turn : nat) (x1 x2 x3 : Random) (ses : Session)
    : Session :=
  match pending ses !! turn with
  | None => ses
  | Some p =>
      match p_game p with
      | None =>
          {| hook := aiTurnResume (p_answer p) x1 x2 x3 (hook ses);
             retired := retired ses;
             pending := delete turn (pending ses) |}
      | Some k =>
          match retired ses !! k with
          | Some held =>
              let s := aiTurnResume (p_answer p) x1 x2 x3
                         (setGame held (hook ses)) in
              {| hook := setGame (game (hook ses)) s;
                 retired := <[k := game s]> (retired ses);
                 pending := delete turn (pending ses) |}
          | None => ses
          end
      end
  end.

Definition asyncStep (ses : Session) (e : AsyncEvent) : Session :=
  match e with
  | aClick square =>
      {| hook := handleSquareClick square (hook ses);
         retired := retired ses; pending := pending ses |}
  | aStart x1 x2 x3 => startAiTurn x1 x2 x3 ses
  | aResume turn x1 x2 x3 => resumeAiTurn turn x1 x2 x3 ses
  | aWatch =>
      {| hook := limitWatcher options (hook ses);
         retired := retired ses; pending := pending ses |}
  | aReset =>
      {| hook := resetGame (hook ses);
         retired := (retired ses ++ [game (hook ses)])%list;
         pending := retire (length (retired ses)) <$> pending ses |}
  end.

Definition runAsync (events : list AsyncEvent) (ses : Session) : Session :=
  foldl asyncStep ses events.

Inductive reachableAsync : Session -> Prop :=
| reachableAsync_init : reachableAsync initialSession
| reachableAsync_step ses e :
    reachableAsync ses -> reachableAsync (asyncStep ses e).

Definition is_aReset (e : AsyncEvent) : bool :=
  match e with aReset => true | _ => false end.

(** No reset happens while a turn is suspended. *)
Fixpoint calmRun (events : list AsyncEvent) (ses : Session) : bool :=
  match events with
  | [] => true
  | e :: rest =>
      (if is_aReset e
       then match pending ses with [] => true | _ :: _ => false end
       else true)
      && calmRun rest (asyncStep ses e)
  end.

End Suspension.

Arguments Session E : clear implicits.

(** A session in which a turn outlives a reset: after 1. e4 the AI turn is
    awaiting the provider when the user resets; the new game is played to
    the forfeit (three turns with the provider unreachable, each started
    and resumed), and the limit watcher runs. *)
Module Stale.

Import Script Scenario.

Definition start : AsyncEvent := aStart firstOf firstOf firstOf.

Definition resume (turn : nat) : AsyncEvent :=
  aResume turn firstOf firstOf firstOf.

Definition mounted : Session E0 := initialSession.

Definition suspendedAcrossReset : Session E0 :=
  runAsync (R := offline) defaults
    [aClick "e2"; aClick "e4"; start; aReset] mounted.

Definition forfeitedAnew : Session E0 :=
  runAsync (R := offline) defaults
    [aClick "e2"; aClick "e4"; start; resume 1;
     aClick "g1"; aClick "f3"; start; resume 1;
     aClick "f1"; aClick "c4"; start; resume 1; aWatch]
    suspendedAcrossReset.

Definition afterStaleTurn : Session E0 :=
  asyncStep (R := offline) defaults forfeitedAnew (resume 0).

(** The same with the old turn resumed right after the reset. *)
Definition overwrittenAtOnce : Session E0 :=
  asyncStep (R := offline) defaults suspendedAcrossReset (resume 0).

(** A game without a reset during a suspended turn. *)
Definition calmEvents : list AsyncEvent :=
  [aClick "e2"; aClick "e4"; start; resume 0; aReset;
   aClick "e2"; aClick "e4"; start; aWatch; resume 0].

(** With a limit of four plies: the old turn is still suspended when the
    new game has reached the limit. *)
Definition fourPlies : option Options :=
  Some {| opt_aiMode := None; opt_maxGameMoves := Some 4;
          opt_maxInvalidMoves := None |}.

Definition fourPliesPlayed : Session E0 :=
  runAsync (R := offline) fourPlies
    [aClick "e2"; aClick "e4"; start; aReset;
     aClick "e2"; aClick "e4"; start; resume 1;
     aClick "g1"; aClick "f3"; start; resume 1] mounted.

Definition drawnAnew : Session E0 :=
  asyncStep (R := offline) fourPlies fourPliesPlayed aWatch.

Definition shortenedAfterDraw : Session E0 :=
  asyncStep (R := offline) fourPlies drawnAnew (resume 0).

End Stale.

(** Texts of the provider padded with white space outside ASCII: the
    no-break space U+00A0 and the byte order mark U+FEFF. *)
Definition nbsp : string :=
  String (Ascii.ascii_of_nat 194) (String (Ascii.ascii_of_nat 160) EmptyString).

Definition bom : string :=
  String (Ascii.ascii_of_nat 239)
    (String (Ascii.ascii_of_nat 187)
       (String (Ascii.ascii_of_nat 191) EmptyString)).

Definition answeringText (t : string) : Runtime :=
  {| generateContent := fun prompt => Return {| text := Some t |};
     JSON_parse := Script.parseReply |}.

(** ** Checks of the model on concrete inputs *)

Example material_start :
  computeMaterialCount startingBoard = {| white := 39; black := 39 |}.
Proof. vm_compute. reflexivity. Qed.

Example trim_reply : trim "  e2e4 " = "e2e4".
Proof. reflexivity. Qed.

Example trim_unicode_space :
  trim (nbsp +:+ "Nf3" +:+ nbsp) = "Nf3"
  /\ trim (bom +:+ " " +:+ nbsp +:+ "N f" +:+ nbsp +:+ "3" +:+ bom +:+ nl)
     = "N f" +:+ nbsp +:+ "3"
  /\ trim (nl +:+ nbsp +:+ " ") = "".
Proof. vm_compute. auto. Qed.

Example join_moves : join ", " ["e2e4"; "g1f3"] = "e2e4, g1f3".
Proof. reflexivity. Qed.

Example member_last_wins :
  member "to" [("to", JString "e4"); ("to", JString "e5")] = Some (JString "e5").
Proof. reflexivity. Qed.

(** ** The provider wrapper *)

Ltac unfold_bind := unfold mbind, Completion_bind, mret, Completion_ret.

Section ProviderProperties.

Context {R : Runtime}.

Lemma getProp_object members key :
  getProp (JObject members) key = Return (member key members).
Proof. reflexivity. Qed.

(** The inner [try] with its handler never throws, and finds exactly the
    described move. *)
Lemma readMove_described raw :
  try_catch (readMove raw) (fun _ => Return None)
  = Return (match JSON_parse raw with
            | Return parsed => describedMove parsed
            | Throw _ => None
            end).
Proof.
  unfold readMove. unfold_bind.
  destruct (JSON_parse raw) as [parsed | e]; [ | reflexivity ].
  destruct parsed as [ | v | lit | str | items | members ]; try reflexivity.
  rewrite !getProp_object.
  unfold describedMove, stringField. simpl.
  destruct (member "from" members) as [ [ | | | f | | ] | ]; try reflexivity.
  destruct (member "to" members) as [ [ | | | t | | ] | ]; try reflexivity.
  destruct (member "promotion" members) as [ [ | | | pr | | ] | ];
    try reflexivity.
  simpl. destruct (decide (pr = "")); reflexivity.
Qed.

(** The wrapper computes the usable move of the response. *)
Lemma getAiMoveJson_returns (fen : string) (player : Color)
    (legalMoves : list string) :
  getAiMoveJson fen player legalMoves
  = Return (usableMove fen player legalMoves).
Proof.
  unfold getAiMoveJson, usableMove, text_trim. unfold_bind.
  destruct (generateContent _) as [[[t | ]] | e]; simpl;
    rewrite ?readMove_described; reflexivity.
Qed.

(** C10.  The provider wrapper [getAiMoveJson] is total: it never throws to
    its caller; it returns a move object exactly when the provider call
    succeeds and its text parses as JSON with string fields [from] and [to]
    (the object carries [promotion] only when that field is a non-empty
    string); in every other case (transport error, missing text,
    unparseable text, missing or non-string fields) it returns [null]. *)
Theorem getAiMoveJson_total (fen : string) (player : Color)
    (legalMoves : list string) :
  (exists answer, getAiMoveJson fen player legalMoves = Return answer)
  /\ (forall m, getAiMoveJson fen player legalMoves = Return (Some m)
                <-> usableMove fen player legalMoves = Some m)
  /\ (getAiMoveJson fen player legalMoves = Return None
      <-> usableMove fen player legalMoves = None).
Proof.
  assert (getAiMoveJson fen player legalMoves
          = Return (usableMove fen player legalMoves)) as Hanswer.
  { unfold getAiMoveJson, usableMove. unfold_bind.
    destruct (generateContent _) as [response | e]; [ | reflexivity ].
    unfold text_trim.
    destruct (text response) as [t | ]; [ | reflexivity ].
    simpl. rewrite readMove_described. reflexivity. }
  rewrite Hanswer. split; [ eauto | ].
  split; [ intros m | ]; split; congruence.
Qed.

End ProviderProperties.

(** ** The session controller *)

Section HookProperties.

Context {E : Chess.Instance} {R : Runtime}.

Variable options : option Options.

Implicit Types (s : HookState E) (e : Event) (events : list Event).

(** *** Move application *)

Lemma makeMove_rejected mv s :
  Chess.move (game s) mv = None -> makeMove mv s = (false, s).
Proof. intros H. unfold makeMove. rewrite H. reflexivity. Qed.

Lemma makeMove_accepted mv s g' :
  Chess.move (game s) mv = Some g' ->
  (makeMove mv s).1 = true
  /\ game (makeMove mv s).2 = g'
  /\ history (makeMove mv s).2 = Chess.history g'
  /\ materialCount (makeMove mv s).2 = computeMaterialCount (Chess.board g').
Proof. intros H. unfold makeMove. rewrite H. simpl. auto. Qed.

(** [makeMove] touches neither the counter nor the override nor the
    selection. *)
Lemma makeMove_frame mv s :
  invalidMoveCount (makeMove mv s).2 = invalidMoveCount s
  /\ manualGameStatus (makeMove mv s).2 = manualGameStatus s
  /\ selectedSquare (makeMove mv s).2 = selectedSquare s
  /\ isAiThinking (makeMove mv s).2 = isAiThinking s.
Proof. unfold makeMove. destruct (Chess.move _ _); simpl; auto. Qed.

Lemma makeMove_in_sync mv s :
  (makeMove mv s).1 = true -> materialInSync (makeMove mv s).2.
Proof.
  unfold makeMove, materialInSync.
  destruct (Chess.move _ _); simpl; [ reflexivity | discriminate ].
Qed.

(** *** Status resolution *)

(** The status is a function of the override and of the engine position. *)
Lemma gameStatus_ext s s' :
  manualGameStatus s' = manualGameStatus s -> game s' = game s ->
  gameStatus s' = gameStatus s.
Proof. intros Hm Hg. unfold gameStatus. rewrite Hm, Hg. reflexivity. Qed.

Lemma gameStatus_manual s st :
  manualGameStatus s = Some st -> gameStatus s = st.
Proof. intros H. unfold gameStatus. rewrite H. reflexivity. Qed.

(** Every status the engine branch can produce, by case. *)
Lemma gameStatus_engine s :
  manualGameStatus s = None ->
  gameStatus s = statusInProgress
  \/ (exists win, win <> winner_draw /\ gameStatus s = statusCheckmate win)
  \/ gameStatus s = statusStalemate
  \/ (exists why, gameStatus s = statusDraw why).
Proof.
  intros H. unfold gameStatus. rewrite H.
  destruct (Chess.in_checkmate _).
  { right; left. destruct (decide _); eexists; (split; [ | reflexivity ]); discriminate. }
  destruct (Chess.in_stalemate _); [ auto | ].
  destruct (Chess.in_draw _); [ right; right; right; eauto | auto ].
Qed.

(** A status other than "in progress" closes the entry condition shared by
    the click handler and the AI turn. *)
Lemma terminal_blocks s :
  gameStatus s <> statusInProgress ->
  isCheckmate (gameStatus s) || isDraw (gameStatus s)
  || is_set (manualGameStatus s) = true.
Proof.
  intros Hterm.
  destruct (manualGameStatus s) as [st | ] eqn:Hm.
  { rewrite !orb_true_r. reflexivity. }
  destruct (gameStatus_engine s Hm) as [H | [[win [_ H]] | [H | [why H]]]];
    rewrite H in *; simpl; congruence.
Qed.

Lemma handleSquareClick_blocked square s :
  isCheckmate (gameStatus s) || isDraw (gameStatus s)
  || is_set (manualGameStatus s) = true ->
  handleSquareClick square s = s.
Proof.
  intros H. unfold handleSquareClick.
  rewrite <- !orb_assoc in *. rewrite H. rewrite orb_true_r. reflexivity.
Qed.

Lemma makeAiMove_blocked x1 x2 x3 s :
  isCheckmate (gameStatus s) || isDraw (gameStatus s)
  || is_set (manualGameStatus s) = true ->
  makeAiMove options x1 x2 x3 s = s.
Proof.
  intros H. unfold makeAiMove.
  destruct (isCheckmate (gameStatus s)), (isDraw (gameStatus s)),
    (is_set (manualGameStatus s)); simpl in H; try discriminate;
    rewrite ?andb_false_r; reflexivity.
Qed.

(** *** The limit watcher *)

Lemma limitWatcher_frame s :
  game (limitWatcher options s) = game s
  /\ fen (limitWatcher options s) = fen s
  /\ history (limitWatcher options s) = history s
  /\ materialCount (limitWatcher options s) = materialCount s
  /\ invalidMoveCount (limitWatcher options s) = invalidMoveCount s.
Proof.
  unfold limitWatcher.
  repeat match goal with |- context [if ?c then _ else _] => destruct c end;
    simpl; auto.
Qed.

Lemma limitWatcher_set s st :
  manualGameStatus s = Some st -> limitWatcher options s = s.
Proof. intros H. unfold limitWatcher. rewrite H. reflexivity. Qed.

(** What the watcher leaves in the override, by case on the two limits. *)
Lemma limitWatcher_unset s :
  manualGameStatus s = None ->
  manualGameStatus (limitWatcher options s)
  = if bool_decide (MAX_GAME_MOVES options <= length (history s))
    then Some statusMaxMoves
    else if bool_decide (MAX_INVALID_MOVES options <= invalidMoveCount s)
         then Some statusForfeit
         else None.
Proof.
  intros H. unfold limitWatcher. rewrite H. simpl.
  destruct (bool_decide (MAX_INVALID_MOVES options <= _));
    destruct (bool_decide (MAX_GAME_MOVES options <= _)); simpl; auto.
Qed.

(** Once an override is set, every event but a reset is the identity. *)
Lemma override_freezes s st e :
  manualGameStatus s = Some st -> is_reset e = false ->
  applyEvent options s e = s.
Proof.
  intros Hm He. destruct e as [square | x1 x2 x3 | | ]; simpl.
  - apply handleSquareClick_blocked. rewrite Hm, orb_true_r. reflexivity.
  - apply makeAiMove_blocked. rewrite Hm, orb_true_r. reflexivity.
  - eapply limitWatcher_set, Hm.
  - discriminate.
Qed.

Lemma override_freezes_run s st events :
  manualGameStatus s = Some st ->
  Forall (fun e => is_reset e = false) events ->
  run options events s = s.
Proof.
  intros Hm Hall. unfold run.
  induction Hall as [ | e events He _ IH ]; simpl; [ reflexivity | ].
  rewrite (override_freezes s st e Hm He). exact IH.
Qed.

Lemma reachable_run s events :
  reachable options s -> reachable options (run options events s).
Proof.
  revert s. unfold run.
  induction events as [ | e events IH ]; intros s Hs; simpl; [ exact Hs | ].
  apply IH. constructor. exact Hs.
Defined.

(** *** The click handler *)

Lemma handleSquareClick_frame square s :
  invalidMoveCount (handleSquareClick square s) = invalidMoveCount s
  /\ manualGameStatus (handleSquareClick square s) = manualGameStatus s.
Proof.
  unfold handleSquareClick.
  destruct (_ || _ || _ || _); [ auto | ].
  destruct (selectedSquare s) as [sel | ].
  - destruct (decide (sel = "")).
    + destruct (bool_decide _); simpl; auto.
    + pose proof (makeMove_frame
        (mv_object {| from := sel; to := square; promotion := Some "q" |}) s)
        as (Hc & Hm & _).
      destruct (makeMove _ s) as [[ | ] s1]; simpl in *; auto.
  - destruct (bool_decide _); simpl; auto.
Qed.

Lemma handleSquareClick_in_sync square s :
  game (handleSquareClick square s) = game s
  /\ materialCount (handleSquareClick square s) = materialCount s
  \/ materialInSync (handleSquareClick square s).
Proof.
  unfold handleSquareClick.
  destruct (_ || _ || _ || _); [ auto | ].
  destruct (selectedSquare s) as [sel | ].
  - destruct (decide (sel = "")).
    + destruct (bool_decide _); simpl; auto.
    + pose proof (makeMove_in_sync
        (mv_object {| from := sel; to := square; promotion := Some "q" |}) s)
        as Hsync.
      pose proof (makeMove_rejected
        (mv_object {| from := sel; to := square; promotion := Some "q" |}) s)
        as Hrej.
      unfold makeMove in *.
      destruct (Chess.move _ _); simpl in *; [ right | left; auto ].
      apply Hsync. reflexivity.
  - destruct (bool_decide _); simpl; auto.
Qed.

(** *** The AI turn *)

Lemma pickRandom_cases (moves : list string) x :
  pickRandom moves x = mv_undefined
  \/ exists san, san ∈ moves /\ pickRandom moves x = mv_string san.
Proof.
  unfold pickRandom.
  destruct (moves !! _) as [san | ] eqn:Hl; [ right | left; reflexivity ].
  exists san. split; [ | reflexivity ].
  eapply list_elem_of_lookup_2, Hl.
Qed.

(** What applying the chosen move does to the session: the override is
    kept, the counter grows by one exactly when a truthy move is rejected,
    and the material is either untouched with the position or recomputed. *)
Lemma applyMoveToMake_effect moveToMake x2 s :
  let s' := applyMoveToMake moveToMake x2 s in
  manualGameStatus s' = manualGameStatus s
  /\ invalidMoveCount s'
     = invalidMoveCount s
       + (if truthy moveToMake
             && negb (is_set (Chess.move (game s) moveToMake))
          then 1 else 0)
  /\ (game s' = game s /\ materialCount s' = materialCount s
      \/ materialInSync s').
Proof.
  unfold applyMoveToMake, makeMove, materialInSync.
  destruct (truthy moveToMake); simpl; [ | auto with lia ].
  destruct (Chess.move (game s) moveToMake) as [g1 | ]; simpl;
    [ auto with lia | ].
  destruct (Chess.move (game s) (pickRandom _ x2)) as [g2 | ]; simpl; auto.
Qed.

(** The [try] block always completes: the provider wrapper cannot throw. *)
Lemma aiTryBlock_returns x1 x2 s :
  aiTryBlock options x1 x2 s
  = Return
      (match aiMode options with
       | random =>
           applyMoveToMake (pickRandom (Chess.moves (game s)) x1) x2 s
       | gemini =>
           match usableMove (Chess.fen (game s)) b (legalMovesUci (game s)) with
           | Some m => applyMoveToMake (mv_object m) x2 s
           | None =>
               applyMoveToMake (pickRandom (Chess.moves (game s)) x1) x2
                 (setInvalidMoveCount (fun prev => prev + 1) s)
           end
       end).
Proof.
  unfold aiTryBlock. rewrite getAiMoveJson_returns. unfold_bind.
  destruct (aiMode options) eqn:Hmode; simpl.
  - destruct (usableMove _ _ _); reflexivity.
  - reflexivity.
Qed.

(** The AI turn never writes the override. *)
Lemma makeAiMove_manual x1 x2 x3 s :
  manualGameStatus (makeAiMove options x1 x2 x3 s) = manualGameStatus s.
Proof.
  unfold makeAiMove.
  destruct (_ && _ && _ && _); [ | reflexivity ].
  rewrite aiTryBlock_returns. simpl.
  destruct (aiMode options); [ destruct (usableMove _ _ _) | ];
    match goal with
    | |- context [applyMoveToMake ?mv ?x ?st] =>
        destruct (applyMoveToMake_effect mv x st) as (-> & _)
    end; reflexivity.
Qed.

Lemma makeAiMove_in_sync x1 x2 x3 s :
  game (makeAiMove options x1 x2 x3 s) = game s
  /\ materialCount (makeAiMove options x1 x2 x3 s) = materialCount s
  \/ materialInSync (makeAiMove options x1 x2 x3 s).
Proof.
  unfold makeAiMove.
  destruct (_ && _ && _ && _); [ | auto ].
  rewrite aiTryBlock_returns. simpl.
  destruct (aiMode options); [ destruct (usableMove _ _ _) | ];
    match goal with
    | |- context [applyMoveToMake ?mv ?x ?st] =>
        destruct (applyMoveToMake_effect mv x st) as (_ & _ & [[Hg Hm] | Hs])
    end; unfold materialInSync in *; simpl in *; auto.
Qed.

(** A move drawn from the legal moves of the position is not rejected,
    provided the engine accepts the moves it lists. *)
Lemma fallback_accepted (g : Chess.position) x :
  (forall san, san ∈ Chess.moves g -> is_Some (Chess.move g (mv_string san))) ->
  truthy (pickRandom (Chess.moves g) x)
  && negb (is_set (Chess.move g (pickRandom (Chess.moves g) x))) = false.
Proof.
  intros Hlegal.
  destruct (pickRandom_cases (Chess.moves g) x) as [-> | (san & Hin & ->)];
    [ reflexivity | ].
  destruct (Hlegal san Hin) as [g' ->]. simpl. apply andb_false_r.
Qed.

(** C1.  One AI turn changes [invalidMoveCount] by exactly one when it is a
    negotiation call in which a failure occurs (the provider gives no
    usable move, or its well-formed proposal is rejected by the engine),
    never by two or more, and leaves the counter unchanged otherwise, in
    particular when the proposal is applied.  The engine is assumed to
    accept the moves it lists for the current position. *)
Theorem invalid_count_per_negotiation x1 x2 x3 s :
  (forall san, san ∈ Chess.moves (game s) ->
     is_Some (Chess.move (game s) (mv_string san))) ->
  invalidMoveCount (makeAiMove options x1 x2 x3 s)
  = invalidMoveCount s
    + (if negotiates s && negotiationFails options s then 1 else 0).
Proof.
  intros Hlegal. unfold makeAiMove.
  change (bool_decide (Chess.turn (game s) = b)
          && negb (isCheckmate (gameStatus s))
          && negb (isDraw (gameStatus s))
          && negb (is_set (manualGameStatus s))) with (negotiates s).
  destruct (negotiates s); simpl; [ | lia ].
  rewrite aiTryBlock_returns. unfold negotiationFails.
  destruct (aiMode options); [ destruct (usableMove _ _ _) as [m | ] | ];
    match goal with
    | |- context [applyMoveToMake ?mv ?x ?st] =>
        destruct (applyMoveToMake_effect mv x st) as (_ & Hcount & _)
    end; simpl in Hcount; simpl; rewrite Hcount.
  - reflexivity.
  - rewrite (fallback_accepted (game s) x1 Hlegal). lia.
  - rewrite (fallback_accepted (game s) x1 Hlegal). lia.
Qed.

(** *** Terminal statuses *)

Lemma limitWatcher_terminal s :
  gameStatus s <> statusInProgress ->
  gameStatus (limitWatcher options s) <> statusInProgress.
Proof.
  intros Hterm.
  destruct (manualGameStatus s) as [st | ] eqn:Hm.
  { rewrite (limitWatcher_set s st Hm). exact Hterm. }
  pose proof (limitWatcher_unset s Hm) as Hw.
  destruct (limitWatcher_frame s) as (Hg & _).
  destruct (bool_decide (MAX_GAME_MOVES options <= _)).
  { rewrite (gameStatus_manual _ _ Hw). discriminate. }
  destruct (bool_decide (MAX_INVALID_MOVES options <= _)).
  { rewrite (gameStatus_manual _ _ Hw). discriminate. }
  rewrite (gameStatus_ext s (limitWatcher options s)); congruence.
Qed.

Lemma terminal_step s e :
  gameStatus s <> statusInProgress -> is_reset e = false ->
  game (applyEvent options s e) = game s
  /\ history (applyEvent options s e) = history s
  /\ gameStatus (applyEvent options s e) <> statusInProgress.
Proof.
  intros Hterm He. destruct e as [square | x1 x2 x3 | | ]; simpl.
  - rewrite (handleSquareClick_blocked square s (terminal_blocks s Hterm)). auto.
  - rewrite (makeAiMove_blocked x1 x2 x3 s (terminal_blocks s Hterm)). auto.
  - destruct (limitWatcher_frame s) as (Hg & _ & Hh & _).
    auto using limitWatcher_terminal.
  - discriminate.
Qed.

(** *** The limits *)

(** C2 (amended).  When [invalidMoveCount] has reached [MAX_INVALID_MOVES]
    while no override is set and the history is shorter than
    [MAX_GAME_MOVES], the limit watcher sets the override to the forfeit
    status, whose winner is the human side ['w'] and whose reason is
    "Gemini forfeited after too many invalid moves"; from then on every
    status query answers that status, whatever events follow, until a
    reset. *)
Theorem forfeit_after_invalid_limit s :
  manualGameStatus s = None ->
  MAX_INVALID_MOVES options <= invalidMoveCount s ->
  length (history s) < MAX_GAME_MOVES options ->
  manualGameStatus (limitWatcher options s) = Some statusForfeit
  /\ winner statusForfeit = Some winner_w
  /\ reason statusForfeit = "Gemini forfeited after too many invalid moves"
  /\ forall events, Forall (fun e => is_reset e = false) events ->
       gameStatus (run options events (limitWatcher options s)) = statusForfeit.
Proof.
  intros Hm Hinv Hlen.
  assert (manualGameStatus (limitWatcher options s) = Some statusForfeit) as Hw.
  { rewrite (limitWatcher_unset s Hm).
    rewrite bool_decide_eq_false_2 by lia.
    rewrite bool_decide_eq_true_2 by lia. reflexivity. }
  repeat split; [ exact Hw | ].
  intros events Hall.
  rewrite (override_freezes_run _ _ events Hw Hall).
  apply gameStatus_manual, Hw.
Qed.

(** When both limits are met in one evaluation, the value queued second
    replaces the forfeit. *)
Lemma limitWatcher_both s :
  manualGameStatus s = None ->
  MAX_INVALID_MOVES options <= invalidMoveCount s ->
  MAX_GAME_MOVES options <= length (history s) ->
  manualGameStatus (limitWatcher options s) = Some statusMaxMoves.
Proof.
  intros Hm Hinv Hlen. rewrite (limitWatcher_unset s Hm).
  rewrite bool_decide_eq_true_2 by lia. reflexivity.
Qed.

(** *** Draw reasons *)

(** C3 (amended).  For a position that the engine reports as neither
    checkmate nor stalemate but as a draw, and with no override set, the
    status is the draw status whose reason is chosen in the order
    insufficient material, then threefold repetition, then the generic
    "Draw". *)
Theorem draw_reason_precedence s :
  manualGameStatus s = None ->
  Chess.in_checkmate (game s) = false ->
  Chess.in_stalemate (game s) = false ->
  Chess.in_draw (game s) = true ->
  gameStatus s
  = statusDraw
      (if Chess.insufficient_material (game s) then "Insufficient Material"
       else if Chess.in_threefold_repetition (game s)
            then "Threefold Repetition"
            else "Draw").
Proof.
  intros Hm Hc Hs Hd. unfold gameStatus, drawReason.
  rewrite Hm, Hc, Hs, Hd.
  destruct (Chess.insufficient_material (game s)),
    (Chess.in_threefold_repetition (game s)); reflexivity.
Qed.

(** *** Human attempts *)

(** C6.  A human move attempt that the engine rejects leaves the session
    as it was: position, FEN, history, material count, invalid-move count
    and override keep their values; the only state variable the handler may
    write is the selection. *)
Theorem rejected_attempt_keeps_session square sel s :
  selectedSquare s = Some sel ->
  Chess.move (game s)
    (mv_object {| from := sel; to := square; promotion := Some "q" |}) = None ->
  sameSession s (handleSquareClick square s)
  /\ (handleSquareClick square s = s
      \/ handleSquareClick square s = setSelectedSquare (Some square) s).
Proof.
  intros Hsel Hrej. unfold handleSquareClick, sameSession.
  destruct (_ || _ || _ || _); [ repeat split; auto | ].
  rewrite Hsel. destruct (decide (sel = "")).
  - destruct (bool_decide _); simpl; repeat split; auto.
  - rewrite (makeMove_rejected _ s Hrej). simpl. repeat split; auto.
Qed.

(** *** Reset and material *)

(** C7.  After [resetGame] the history is empty, the invalid-move count is
    zero, no override is set, and the material count is 39 for each side,
    the engine answering the standard starting array for a new game. *)
Theorem reset_yields_fresh_session s :
  Chess.board Chess.new = startingBoard ->
  history (resetGame s) = []
  /\ invalidMoveCount (resetGame s) = 0
  /\ manualGameStatus (resetGame s) = None
  /\ materialCount (resetGame s) = {| white := 39; black := 39 |}.
Proof.
  intros Hboard. unfold resetGame. simpl. rewrite Hboard.
  repeat split.
Qed.

Lemma resetGame_in_sync s : materialInSync (resetGame s).
Proof. reflexivity. Qed.

(** From the first accepted move or the first reset on, the material count
    follows the board; before that the state still has the values given to
    [useState]. *)
Lemma material_in_sync_or_untouched s :
  reachable options s ->
  materialInSync s
  \/ (game s = Chess.new /\ materialCount s = {| white := 0; black := 0 |}).
Proof.
  induction 1 as [ | s e Hs IH ]; [ right; split; reflexivity | ].
  assert (game (applyEvent options s e) = game s
          /\ materialCount (applyEvent options s e) = materialCount s
          \/ materialInSync (applyEvent options s e)) as [[Hg Hm] | Hsync].
  { destruct e as [square | x1 x2 x3 | | ]; simpl.
    - apply handleSquareClick_in_sync.
    - apply makeAiMove_in_sync.
    - destruct (limitWatcher_frame s) as (Hg & _ & _ & Hm & _). auto.
    - right. apply resetGame_in_sync. }
  - unfold materialInSync in *. rewrite Hg, Hm. exact IH.
  - left. exact Hsync.
Qed.

(** *** Shapes of the status *)

(** The only overrides ever written are the two of the limit watcher. *)
Lemma reachable_override s :
  reachable options s ->
  manualGameStatus s = None
  \/ manualGameStatus s = Some statusForfeit
  \/ manualGameStatus s = Some statusMaxMoves.
Proof.
  induction 1 as [ | s e Hs IH ]; [ left; reflexivity | ].
  destruct e as [square | x1 x2 x3 | | ]; simpl.
  - destruct (handleSquareClick_frame square s) as (_ & ->). exact IH.
  - rewrite makeAiMove_manual. exact IH.
  - destruct (manualGameStatus s) as [st | ] eqn:Hm.
    + rewrite (limitWatcher_set s st Hm), Hm. exact IH.
    + rewrite (limitWatcher_unset s Hm).
      repeat match goal with |- context [bool_decide ?P] =>
        destruct (bool_decide P) end; auto.
  - left. reflexivity.
Qed.

(** C9 (amended).  The status of a reachable session has exactly one of
    five shapes: in progress, checkmate (with a winner), stalemate, draw
    (with a reason) or forfeit.  The tests for in progress, checkmate, draw
    and forfeit single out their shape; a stalemate status passes both the
    stalemate test and the draw test, its [isDraw] flag being set. *)
Theorem status_shapes s :
  reachable options s ->
  (gameStatus s = statusInProgress
   /\ variantsOf (gameStatus s) = [InProgress])
  \/ (exists win, win <> winner_draw
        /\ gameStatus s = statusCheckmate win
        /\ variantsOf (gameStatus s) = [Checkmate])
  \/ (gameStatus s = statusStalemate
      /\ variantsOf (gameStatus s) = [Stalemate; Draw])
  \/ (exists why, gameStatus s = statusDraw why
        /\ variantsOf (gameStatus s) = [Draw])
  \/ (gameStatus s = statusForfeit
      /\ variantsOf (gameStatus s) = [Forfeit]).
Proof.
  intros Hs.
  destruct (reachable_override s Hs) as [Hm | [Hm | Hm]].
  - destruct (gameStatus_engine s Hm) as [H | [[win [Hw H]] | [H | [why H]]]];
      rewrite H.
    + left. split; reflexivity.
    + right; left. exists win. repeat split; assumption.
    + right; right; left. split; reflexivity.
    + right; right; right; left. exists why. split; reflexivity.
  - rewrite (gameStatus_manual s _ Hm).
    right; right; right; right. split; reflexivity.
  - rewrite (gameStatus_manual s _ Hm).
    right; right; right; left. exists "Max moves reached". split; reflexivity.
Qed.

End HookProperties.

(** ** The scripted engine

    A scripted engine accepts every move it lists, whatever the script. *)

Lemma lookupMove_listed (n : list (VerboseMove * Script.Tree)) san :
  san ∈ ((fun '(candidate, _) => vm_san candidate) <$> n) ->
  is_Some (Script.lookupMove (mv_string san) n).
Proof.
  induction n as [ | [candidate t] n IH ]; simpl; intros Hin.
  - inversion Hin.
  - destruct (bool_decide (vm_san candidate = san)) eqn:Hsan; [ eauto | ].
    apply IH. apply elem_of_cons in Hin as [Heq | Hin]; [ | exact Hin ].
    apply bool_decide_eq_false in Hsan. congruence.
Qed.

Lemma scripted_moves_accepted (start t : Script.Tree) san :
  san ∈ Chess.moves (Instance := Script.engine start) t ->
  is_Some (Chess.move (Instance := Script.engine start) t (mv_string san)).
Proof. apply lookupMove_listed. Qed.

(** ** The properties on scripted sessions *)

Section Sessions.

Import Script Scenario.

#[local] Existing Instance E0.
#[local] Existing Instance offline.

(** The scripted runs behave as the scenarios of the specification. *)
Example run_e4 :
  history afterE4 = ["e4"]
  /\ Chess.turn (game afterE4) = b
  /\ materialCount afterE4 = {| white := 39; black := 39 |}.
Proof. vm_compute. auto. Qed.

Example run_legal_reply :
  let s := makeAiMove (R := replying "e7" "e5") defaults
             firstOf firstOf firstOf afterE4 in
  history s = ["e4"; "e5"] /\ invalidMoveCount s = 0
  /\ Chess.turn (game s) = w.
Proof. vm_compute. auto. Qed.

Example run_illegal_reply :
  let s := makeAiMove (R := replying "e7" "e4") defaults
             firstOf firstOf firstOf afterE4 in
  history s = ["e4"; "e5"] /\ invalidMoveCount s = 1.
Proof. vm_compute. auto. Qed.

Example run_three_failures :
  invalidMoveCount threeFailures = 3
  /\ length (history threeFailures) = 6
  /\ manualGameStatus threeFailures = None
  /\ gameStatus forfeited = statusForfeit.
Proof. vm_compute. auto. Qed.

Example default_limits :
  MAX_INVALID_MOVES defaults = 3 /\ MAX_GAME_MOVES defaults = 200
  /\ aiMode defaults = gemini.
Proof. vm_compute. auto. Qed.

Example failed_turn_counts_once :
  negotiates afterE4 = true
  /\ negotiationFails defaults afterE4 = true
  /\ invalidMoveCount (makeAiMove defaults firstOf firstOf firstOf afterE4) = 1.
Proof. vm_compute. auto. Qed.

Example wrapper_answers :
  getAiMoveJson (R := replying "e7" "e5") "" b []
  = Return (Some {| from := "e7"; to := "e5"; promotion := None |})
  /\ getAiMoveJson (R := replying "a1" "a9") "" b [] = Return None
  /\ getAiMoveJson (R := offline) "" b [] = Return None
  /\ getAiMoveJson
       (R := {| generateContent := fun _ => Return {| text := None |};
                JSON_parse := parseReply |}) "" b [] = Return None
  /\ getAiMoveJson
       (R := {| generateContent := answering "e7" "e5";
                JSON_parse := fun _ => Return JNull |}) "" b [] = Return None.
Proof. vm_compute. auto. Qed.

Lemma threeFailures_reachable : reachable defaults threeFailures.
Proof. apply reachable_run. constructor. Defined.

Lemma forfeited_reachable : reachable defaults forfeited.
Proof.
  change forfeited with (applyEvent defaults threeFailures Watch).
  constructor. exact threeFailures_reachable.
Defined.

(** C1 at the position after 1. e4 with the provider unreachable: the
    listed moves are accepted, and the turn counts one failure. *)
Lemma invalid_count_per_negotiation_witness :
  (forall san, san ∈ Chess.moves (game afterE4) ->
     is_Some (Chess.move (game afterE4) (mv_string san)))
  /\ invalidMoveCount (makeAiMove defaults firstOf firstOf firstOf afterE4)
     = invalidMoveCount afterE4
       + (if negotiates afterE4 && negotiationFails defaults afterE4
          then 1 else 0).
Proof.
  split; [ apply scripted_moves_accepted | ].
  apply (invalid_count_per_negotiation defaults firstOf firstOf firstOf
           afterE4 (scripted_moves_accepted pos0 (game afterE4))).
Defined.

(** C2 as stated fails on the reason: after three failed negotiations the
    watcher writes a forfeit won by the human side, but not the status
    worded "AI forfeited after too many invalid moves". *)
Lemma forfeit_reason_counterexample :
  manualGameStatus threeFailures = None
  /\ invalidMoveCount threeFailures = MAX_INVALID_MOVES defaults
  /\ manualGameStatus (limitWatcher defaults threeFailures)
     <> Some describedForfeit
  /\ exists st, manualGameStatus (limitWatcher defaults threeFailures) = Some st
       /\ winner st = Some winner_w
       /\ reason st <> "AI forfeited after too many invalid moves".
Proof.
  split; [ reflexivity | ]. split; [ reflexivity | ].
  split; [ vm_compute; discriminate | ].
  exists statusForfeit. split; [ reflexivity | ].
  split; [ reflexivity | vm_compute; discriminate ].
Qed.

Lemma forfeit_after_invalid_limit_witness :
  manualGameStatus threeFailures = None
  /\ MAX_INVALID_MOVES defaults <= invalidMoveCount threeFailures
  /\ length (history threeFailures) < MAX_GAME_MOVES defaults
  /\ manualGameStatus (limitWatcher defaults threeFailures)
     = Some statusForfeit
  /\ gameStatus (run defaults [Click "d2"; aiTurn; Watch]
                   (limitWatcher defaults threeFailures)) = statusForfeit.
Proof.
  assert (manualGameStatus threeFailures = None) as Hm by reflexivity.
  assert (MAX_INVALID_MOVES defaults <= invalidMoveCount threeFailures)
    as Hinv by (vm_compute; lia).
  assert (length (history threeFailures) < MAX_GAME_MOVES defaults)
    as Hlen by (vm_compute; lia).
  destruct (forfeit_after_invalid_limit defaults threeFailures Hm Hinv Hlen)
    as (Hw & _ & _ & Hsticky).
  split; [ exact Hm | ]. split; [ exact Hinv | ]. split; [ exact Hlen | ].
  split; [ exact Hw | ].
  apply Hsticky. repeat constructor.
Defined.

(** C3 as stated fails where both conditions hold: two bare kings after a
    threefold repetition resolve to "Insufficient Material". *)
Lemma draw_reason_counterexample :
  Chess.in_checkmate (game atBareKings) = false
  /\ Chess.in_stalemate (game atBareKings) = false
  /\ Chess.in_draw (game atBareKings) = true
  /\ Chess.in_threefold_repetition (game atBareKings) = true
  /\ Chess.insufficient_material (game atBareKings) = true
  /\ describedDrawReason (game atBareKings) = "Threefold Repetition"
  /\ gameStatus atBareKings <> statusDraw "Threefold Repetition".
Proof. vm_compute. repeat split; discriminate. Qed.

Lemma draw_reason_precedence_witness :
  gameStatus atBareKings = statusDraw "Insufficient Material".
Proof.
  apply (draw_reason_precedence atBareKings); reflexivity.
Defined.

(** C4 fails on the code: with limits 1 and 2, the failed AI turn after
    1. e4 meets both limits in one evaluation of the watcher, and the
    override that results is the draw, not the forfeit. *)
Theorem both_limits_end_in_draw :
  manualGameStatus bothLimits = None
  /\ MAX_INVALID_MOVES tight <= invalidMoveCount bothLimits
  /\ MAX_GAME_MOVES tight <= length (history bothLimits)
  /\ manualGameStatus (limitWatcher tight bothLimits) = Some statusMaxMoves
  /\ manualGameStatus (limitWatcher tight bothLimits) <> Some statusForfeit.
Proof. vm_compute. repeat split; (lia || discriminate). Qed.

Lemma rejected_attempt_keeps_session_witness :
  let s := handleSquareClick "e2" fresh in
  selectedSquare s = Some "e2"
  /\ Chess.move (game s)
       (mv_object {| from := "e2"; to := "e5"; promotion := Some "q" |}) = None
  /\ sameSession s (handleSquareClick "e5" s).
Proof.
  intros s.
  assert (selectedSquare s = Some "e2") as Hsel by reflexivity.
  assert (Chess.move (game s)
            (mv_object {| from := "e2"; to := "e5"; promotion := Some "q" |})
          = None) as Hrej by reflexivity.
  split; [ exact Hsel | ]. split; [ exact Hrej | ].
  apply (rejected_attempt_keeps_session "e5" "e2" s Hsel Hrej).
Defined.

Lemma reset_yields_fresh_session_witness :
  Chess.board Chess.new = startingBoard
  /\ history (resetGame forfeited) = []
  /\ invalidMoveCount (resetGame forfeited) = 0
  /\ manualGameStatus (resetGame forfeited) = None
  /\ materialCount (resetGame forfeited) = {| white := 39; black := 39 |}.
Proof.
  split; [ reflexivity | ].
  apply (reset_yields_fresh_session forfeited). reflexivity.
Defined.

(** C8 fails on the code at session start: the material count given to
    [useState] is zero for both sides, the board holds 39 for each. *)
Theorem fresh_session_material_out_of_sync :
  reachable defaults fresh
  /\ materialCount fresh = {| white := 0; black := 0 |}
  /\ computeMaterialCount (Chess.board (game fresh))
     = {| white := 39; black := 39 |}
  /\ ~ materialInSync fresh.
Proof.
  split; [ constructor | ].
  split; [ reflexivity | ]. split; [ vm_compute; reflexivity | ].
  unfold materialInSync. vm_compute. discriminate.
Qed.

(** C9 as stated fails on a stalemate: the status passes the stalemate
    test and the draw test. *)
Lemma stalemate_counterexample :
  Chess.in_stalemate (game atStalemate) = true
  /\ satisfies (gameStatus atStalemate) Stalemate = true
  /\ satisfies (gameStatus atStalemate) Draw = true
  /\ variantsOf (gameStatus atStalemate) = [Stalemate; Draw].
Proof. vm_compute. auto. Qed.

Lemma status_shapes_witness :
  reachable defaults forfeited
  /\ gameStatus forfeited = statusForfeit
  /\ variantsOf (gameStatus forfeited) = [Forfeit].
Proof.
  split; [ exact forfeited_reachable | ].
  destruct (status_shapes defaults forfeited forfeited_reachable)
    as [[H _] | [(win & _ & H & _) | [[H _] | [(why & H & _) | H]]]];
    try (exfalso; vm_compute in H; discriminate H).
  exact H.
Defined.

End Sessions.

(** ** Material count, further properties *)

Lemma countPiece_fold (row : list (option Piece)) (acc : Material) :
  foldl countPiece acc row
  = {| white := white acc + sum_list_with (squareValue w) row;
       black := black acc + sum_list_with (squareValue b) row |}.
Proof.
  revert acc. induction row as [ | sq row IH ]; intros [aw ab]; simpl.
  - f_equal; lia.
  - rewrite IH. destruct sq as [[t [ | ]] | ]; simpl; f_equal; lia.
Qed.

(** The two loops add up, per colour, the values of all squares. *)
Lemma computeMaterialCount_sum (board : list (list (option Piece))) :
  computeMaterialCount board
  = {| white := sum_list_with (squareValue w) (concat board);
       black := sum_list_with (squareValue b) (concat board) |}.
Proof.
  unfold computeMaterialCount.
  assert (forall acc,
    foldl (fun acc row => foldl countPiece acc row) acc board
    = {| white := white acc + sum_list_with (squareValue w) (concat board);
         black := black acc + sum_list_with (squareValue b) (concat board) |})
    as Hgen.
  { induction board as [ | row board IH ]; intros [aw ab]; simpl.
    - f_equal; lia.
    - rewrite IH, countPiece_fold, !sum_list_with_app. simpl. f_equal; lia. }
  rewrite Hgen. reflexivity.
Qed.

(** Every piece kind has an entry in [pieceValues]: the fallback to zero
    for a missing key is never taken. *)
Lemma pieceValue_of (t : PieceType) :
  default 0 (pieceValues !! type_key t)
  = match t with
    | type_p => 1 | type_n => 3 | type_b => 3
    | type_r => 5 | type_q => 9 | type_k => 0
    end.
Proof. destruct t; vm_compute; reflexivity. Qed.

(** X1.  The material count depends only on which pieces are on the board,
    not on where they stand nor on how the squares are split into rows: two
    boards holding the same squares in any order have the same count. *)
Theorem material_ignores_placement (board1 board2 : list (list (option Piece))) :
  concat board1 ≡ₚ concat board2 ->
  computeMaterialCount board1 = computeMaterialCount board2.
Proof.
  intros Hperm. rewrite !computeMaterialCount_sum.
  f_equal; apply sum_list_with_Permutation_proper, Hperm.
Qed.

(** X2.  Emptying a square lowers the count of the colour of the piece that
    stood there by the value of that piece (1, 3, 3, 5, 9, and 0 for the
    king) and leaves the other colour's count as it was. *)
Theorem material_after_removal (above below : list (list (option Piece)))
    (left right : list (option Piece)) (p : Piece) :
  let before := computeMaterialCount (above ++ [left ++ Some p :: right] ++ below)%list in
  let after := computeMaterialCount (above ++ [left ++ None :: right] ++ below)%list in
  let value :=
    match type p with
    | type_p => 1 | type_n => 3 | type_b => 3
    | type_r => 5 | type_q => 9 | type_k => 0
    end in
  match color p with
  | w => white before = white after + value /\ black before = black after
  | b => black before = black after + value /\ white before = white after
  end.
Proof.
  destruct p as [t c]. simpl.
  rewrite !computeMaterialCount_sum, !concat_app. simpl.
  rewrite ?app_nil_r, !sum_list_with_app. simpl.
  rewrite pieceValue_of.
  destruct c; destruct t; simpl; split; lia.
Qed.

(** ** The session controller, further properties *)

Section HookExtras.

Context {E : Chess.Instance} {R : Runtime}.

Variable options : option Options.

Implicit Types (s : HookState E) (e : Event) (events : list Event).

(** *** Random choices *)

Lemma randomIndex_lt x n : 0 < n -> randomIndex x n < n.
Proof.
  intros Hn. unfold randomIndex. pose proof (rnd_lt x) as Hx.
  apply Nat.Div0.div_lt_upper_bound. nia.
Qed.

Lemma pickRandom_member (moves : list string) x :
  moves <> [] -> exists san, san ∈ moves /\ pickRandom moves x = mv_string san.
Proof.
  intros Hne. unfold pickRandom.
  destruct (lookup_lt_is_Some_2 moves (randomIndex x (length moves)))
    as [san Hsan].
  { apply randomIndex_lt. destruct moves; [ congruence | simpl; lia ]. }
  rewrite Hsan. exists san. split; [ | reflexivity ].
  eapply list_elem_of_lookup_2, Hsan.
Qed.

(** X3.  A random pick never reads outside its array: from a non-empty
    list of moves it is one of the listed moves, only the empty list gives
    [undefined]; and the rotating message is always one of the six
    thinking messages. *)
Theorem random_pick_in_range x :
  (forall moves : list string, moves <> [] ->
     exists san, san ∈ moves /\ pickRandom moves x = mv_string san)
  /\ pickRandom [] x = mv_undefined
  /\ (exists message, message ∈ thinkingMessages
        /\ nextThinkingMessage x = Some message).
Proof.
  split; [ intros moves; apply pickRandom_member | ].
  split; [ reflexivity | ].
  unfold nextThinkingMessage.
  destruct (lookup_lt_is_Some_2 thinkingMessages
              (randomIndex x (length thinkingMessages))) as [message Hm].
  { apply randomIndex_lt. simpl. lia. }
  exists message. split; [ eapply list_elem_of_lookup_2, Hm | exact Hm ].
Qed.

(** *** One move at a time *)

Lemma positionKept_refl s : positionKept s s.
Proof. repeat split. Qed.

Lemma applyMoveToMake_moves moveToMake x2 s :
  positionKept s (applyMoveToMake moveToMake x2 s)
  \/ oneMoveApplied s (applyMoveToMake moveToMake x2 s).
Proof.
  unfold applyMoveToMake, makeMove, positionKept, oneMoveApplied.
  destruct (truthy moveToMake); simpl; [ | left; repeat split ].
  destruct (Chess.move (game s) moveToMake) as [g1 | ] eqn:H1; simpl.
  { right. exists moveToMake, g1. repeat split. exact H1. }
  destruct (Chess.move (game s) (pickRandom _ x2)) as [g2 | ] eqn:H2; simpl.
  - right. eexists _, g2. repeat split. exact H2.
  - left. repeat split.
Qed.

Lemma makeAiMove_moves x1 x2 x3 s :
  positionKept s (makeAiMove options x1 x2 x3 s)
  \/ (Chess.turn (game s) = b
      /\ oneMoveApplied s (makeAiMove options x1 x2 x3 s)).
Proof.
  unfold makeAiMove.
  destruct (bool_decide (Chess.turn (game s) = b)) eqn:Hturn; simpl;
    [ | left; apply positionKept_refl ].
  apply bool_decide_eq_true in Hturn.
  destruct (_ && _ && _); [ | left; apply positionKept_refl ].
  rewrite aiTryBlock_returns.
  destruct (aiMode options); [ destruct (usableMove _ _ _) | ];
    match goal with
    | |- context [applyMoveToMake ?mv ?x ?st] =>
        destruct (applyMoveToMake_moves mv x st) as [Hk | Hm]
    end;
    solve [ left; unfold positionKept in *; simpl in *; exact Hk
          | right; split; [ exact Hturn | ];
            unfold oneMoveApplied in *; simpl in *; exact Hm ].
Qed.

Lemma handleSquareClick_moves square s :
  positionKept s (handleSquareClick square s)
  \/ (Chess.turn (game s) = w
      /\ oneMoveApplied s (handleSquareClick square s)).
Proof.
  unfold handleSquareClick.
  destruct (bool_decide (Chess.turn (game s) = w)) eqn:Hturn; simpl;
    [ | left; apply positionKept_refl ].
  apply bool_decide_eq_true in Hturn.
  destruct (_ || _ || _); [ left; apply positionKept_refl | ].
  destruct (selectedSquare s) as [sel | ].
  - destruct (decide (sel = "")).
    + destruct (bool_decide _); left; repeat split.
    + unfold makeMove.
      destruct (Chess.move (game s) _) as [g' | ] eqn:Hmove; simpl.
      * right. split; [ exact Hturn | ].
        eexists _, g'. repeat split. exact Hmove.
      * left. repeat split.
  - destruct (bool_decide _); left; repeat split.
Qed.


(** *** The invalid-move counter *)

Lemma makeAiMove_count x1 x2 x3 s :
  invalidMoveCount s <= invalidMoveCount (makeAiMove options x1 x2 x3 s)
  <= invalidMoveCount s + 2.
Proof.
  unfold makeAiMove.
  destruct (_ && _ && _ && _); [ | lia ].
  rewrite aiTryBlock_returns.
  destruct (aiMode options); [ destruct (usableMove _ _ _) | ];
    match goal with
    | |- context [applyMoveToMake ?mv ?x ?st] =>
        destruct (applyMoveToMake_effect mv x st) as (_ & Hcount & _)
    end; simpl in *; rewrite Hcount;
    match goal with |- context [if ?c then _ else _] => destruct c end; lia.
Qed.

(** X5.  The invalid-move counter never decreases except by a reset: a
    click and the limit watcher leave it as it is, an AI turn raises it by
    at most two (whatever the engine answers), and a reset sets it to
    zero. *)
Theorem invalid_count_growth s :
  (forall square,
     invalidMoveCount (handleSquareClick square s) = invalidMoveCount s)
  /\ invalidMoveCount (limitWatcher options s) = invalidMoveCount s
  /\ (forall x1 x2 x3,
        invalidMoveCount s <= invalidMoveCount (makeAiMove options x1 x2 x3 s)
        <= invalidMoveCount s + 2)
  /\ invalidMoveCount (resetGame s) = 0.
Proof.
  split; [ intros square; apply handleSquareClick_frame | ].
  split; [ apply limitWatcher_frame | ].
  split; [ intros; apply makeAiMove_count | reflexivity ].
Qed.

(** *** Progress of the AI turn *)

Lemma applyMoveToMake_progress moveToMake x2 s :
  (forall san, san ∈ Chess.moves (game s) ->
     is_Some (Chess.move (game s) (mv_string san))) ->
  Chess.moves (game s) <> [] ->
  truthy moveToMake = true ->
  oneMoveApplied s (applyMoveToMake moveToMake x2 s).
Proof.
  intros Hlegal Hne Htruthy.
  unfold applyMoveToMake, makeMove, oneMoveApplied. rewrite Htruthy.
  destruct (Chess.move (game s) moveToMake) as [g1 | ] eqn:H1; simpl.
  { exists moveToMake, g1. repeat split. exact H1. }
  destruct (pickRandom_member (Chess.moves (game s)) x2 Hne)
    as (san & Hin & ->).
  destruct (Hlegal san Hin) as [g2 H2]. rewrite H2. simpl.
  exists (mv_string san), g2. repeat split. exact H2.
Qed.

(** X6.  An AI turn that passes its entry condition always makes a move,
    whatever the provider answers: provided the position has a legal move,
    the engine accepts the moves it lists and none of them is the empty
    text, the position after the turn is the result of one accepted move. *)
Theorem ai_turn_makes_a_move x1 x2 x3 s :
  negotiates s = true ->
  (forall san, san ∈ Chess.moves (game s) ->
     is_Some (Chess.move (game s) (mv_string san))) ->
  Chess.moves (game s) <> [] ->
  "" ∉ Chess.moves (game s) ->
  oneMoveApplied s (makeAiMove options x1 x2 x3 s).
Proof.
  intros Hneg Hlegal Hne Hempty. unfold makeAiMove.
  change (bool_decide (Chess.turn (game s) = b)
          && negb (isCheckmate (gameStatus s))
          && negb (isDraw (gameStatus s))
          && negb (is_set (manualGameStatus s))) with (negotiates s).
  rewrite Hneg, aiTryBlock_returns.
  assert (truthy (pickRandom (Chess.moves (game s)) x1) = true) as Hpick.
  { destruct (pickRandom_member (Chess.moves (game s)) x1 Hne)
      as (san & Hin & ->).
    simpl. apply negb_true_iff, bool_decide_eq_false. congruence. }
  destruct (aiMode options); [ destruct (usableMove _ _ _) | ];
    match goal with
    | |- context [applyMoveToMake ?mv ?x ?st] =>
        pose proof (applyMoveToMake_progress mv x st Hlegal Hne) as Hmove
    end;
    unfold oneMoveApplied in *; simpl in *; apply Hmove;
    solve [ reflexivity | exact Hpick ].
Qed.

(** *** State variables that mirror the position *)

Lemma mirrors_step s e :
  fen s = Chess.fen (game s) ->
  fen (applyEvent options s e) = Chess.fen (game (applyEvent options s e)).
Proof.
  intros Hfen.
  assert (positionKept s (applyEvent options s e)
          \/ oneMoveApplied s (applyEvent options s e)
          \/ e = Reset) as [Hk | [Hm | ->]].
  { destruct e as [square | x1 x2 x3 | | ]; simpl.
    - destruct (handleSquareClick_moves square s) as [H | [_ H]]; auto.
    - destruct (makeAiMove_moves x1 x2 x3 s) as [H | [_ H]]; auto.
    - left. destruct (limitWatcher_frame options s) as (Hg & Hf & Hh & Hm & _).
      repeat split; assumption.
    - auto. }
  - destruct Hk as (Hg & Hf & _). rewrite Hg, Hf. exact Hfen.
  - destruct Hm as (mv & g' & _ & Hg & Hf & _). rewrite Hg, Hf. reflexivity.
  - reflexivity.
Qed.

Lemma history_step s e :
  Chess.history Chess.new = [] ->
  history s = Chess.history (game s) ->
  history (applyEvent options s e)
  = Chess.history (game (applyEvent options s e)).
Proof.
  intros Hnew Hhist.
  assert (positionKept s (applyEvent options s e)
          \/ oneMoveApplied s (applyEvent options s e)
          \/ e = Reset) as [Hk | [Hm | ->]].
  { destruct e as [square | x1 x2 x3 | | ]; simpl.
    - destruct (handleSquareClick_moves square s) as [H | [_ H]]; auto.
    - destruct (makeAiMove_moves x1 x2 x3 s) as [H | [_ H]]; auto.
    - left. destruct (limitWatcher_frame options s) as (Hg & Hf & Hh & Hm & _).
      repeat split; assumption.
    - auto. }
  - destruct Hk as (Hg & _ & Hh & _). rewrite Hg, Hh. exact Hhist.
  - destruct Hm as (mv & g' & _ & Hg & _ & Hh & _). rewrite Hg, Hh. reflexivity.
  - simpl. symmetry. exact Hnew.
Qed.

(** *** The override *)

(** X9.  When the history has reached [MAX_GAME_MOVES] (default 200) while
    no override is set, the limit watcher sets the override to the draw
    status with reason "Max moves reached", whatever the invalid-move count
    is, and every later status query answers that status until a reset. *)
Theorem draw_after_move_limit s :
  manualGameStatus s = None ->
  MAX_GAME_MOVES options <= length (history s) ->
  manualGameStatus (limitWatcher options s) = Some statusMaxMoves
  /\ isDraw statusMaxMoves = true
  /\ reason statusMaxMoves = "Max moves reached"
  /\ forall events, Forall (fun e => is_reset e = false) events ->
       gameStatus (run options events (limitWatcher options s))
       = statusMaxMoves.
Proof.
  intros Hm Hlen.
  assert (manualGameStatus (limitWatcher options s) = Some statusMaxMoves)
    as Hw.
  { rewrite (limitWatcher_unset options s Hm).
    rewrite bool_decide_eq_true_2 by lia. reflexivity. }
  repeat split; [ exact Hw | ].
  intros events Hall.
  rewrite (override_freezes_run options _ _ events Hw Hall).
  apply gameStatus_manual, Hw.
Qed.

(** X10.  The limit watcher is one-shot and complete: after it has run, an
    override is set exactly when one was set before or one of the two
    limits is met; and running it a second time changes nothing. *)
Theorem watcher_is_one_shot s :
  is_set (manualGameStatus (limitWatcher options s))
  = is_set (manualGameStatus s)
    || bool_decide (MAX_INVALID_MOVES options <= invalidMoveCount s)
    || bool_decide (MAX_GAME_MOVES options <= length (history s))
  /\ limitWatcher options (limitWatcher options s) = limitWatcher options s.
Proof.
  destruct (manualGameStatus s) as [st | ] eqn:Hm.
  { rewrite !(limitWatcher_set options s st Hm), Hm. split; reflexivity. }
  split.
  - rewrite (limitWatcher_unset options s Hm).
    destruct (bool_decide (MAX_INVALID_MOVES options <= invalidMoveCount s));
      destruct (bool_decide (MAX_GAME_MOVES options <= length (history s)));
      reflexivity.
  - destruct (manualGameStatus (limitWatcher options s)) as [st | ] eqn:Hw.
    { apply (limitWatcher_set options _ st Hw). }
    assert (limitWatcher options s = s) as Hidle.
    { unfold limitWatcher in *. rewrite Hm in *. simpl in *.
      destruct (bool_decide (MAX_INVALID_MOVES options <= invalidMoveCount s));
        destruct (bool_decide (MAX_GAME_MOVES options <= length (history s)));
        simpl in *; try discriminate; reflexivity. }
    rewrite !Hidle. reflexivity.
Qed.

(** *** Handlers outside their turn *)

(** X12.  The handlers agree with the indicators shown or used around
    them: when the panel's player-turn indicator is off, a click changes
    nothing; and when the turn effect would not schedule an AI move, an AI
    turn changes nothing. *)
Theorem handlers_idle_outside_their_turn s :
  (isPlayerTurn (gameStatus s) (Chess.turn (game s)) = false ->
     forall square, handleSquareClick square s = s)
  /\ (schedulesAiMove s = false ->
        forall x1 x2 x3, makeAiMove options x1 x2 x3 s = s).
Proof.
  split.
  - unfold isPlayerTurn, handleSquareClick. intros Hidle square.
    destruct (bool_decide (Chess.turn (game s) = w)),
      (isCheckmate (gameStatus s)), (isDraw (gameStatus s));
      simpl in *; try reflexivity; discriminate.
  - unfold schedulesAiMove, makeAiMove. intros Hidle x1 x2 x3.
    destruct (bool_decide (Chess.turn (game s) = b)),
      (is_set (manualGameStatus s)); simpl in *;
      rewrite ?andb_false_r; try reflexivity; discriminate.
Qed.

(** *** What the interface shows *)

(** The shapes of a reachable status, without the variant tests. *)
Lemma reachable_status s :
  reachable options s ->
  gameStatus s = statusInProgress
  \/ (exists win, win <> winner_draw /\ gameStatus s = statusCheckmate win)
  \/ gameStatus s = statusStalemate
  \/ (exists why, gameStatus s = statusDraw why)
  \/ gameStatus s = statusForfeit.
Proof.
  intros Hs.
  destruct (reachable_override options s Hs) as [Hm | [Hm | Hm]].
  - destruct (gameStatus_engine s Hm) as [H | [H | [H | H]]]; auto.
  - rewrite (gameStatus_manual s _ Hm). auto 6.
  - rewrite (gameStatus_manual s _ Hm).
    right; right; right; left. exists "Max moves reached". reflexivity.
Qed.

(** X13.  The status line of the panel never reads "You forfeited", and it
    shows a turn prompt ("Your Turn", "Gemini's Turn" or "Random's Turn")
    exactly while the game is in progress. *)
Theorem status_line_follows_status s (turn : Color) (mode : AiMode) :
  reachable options s ->
  getStatusMessage (gameStatus s) turn mode <> "You forfeited"
  /\ (getStatusMessage (gameStatus s) turn mode
      = (if decide (turn = w) then "Your Turn"
         else (if decide (mode = gemini) then "Gemini" else "Random")
              +:+ "'s Turn")
      <-> gameStatus s = statusInProgress).
Proof.
  intros Hs.
  destruct (reachable_status s Hs)
    as [H | [(win & Hwin & H) | [H | [(why & H) | H]]]]; rewrite H.
  - split; [ | split; reflexivity ].
    destruct turn, mode; simpl; discriminate.
  - split; [ destruct win; simpl; discriminate | ].
    split; [ | discriminate ].
    destruct win, turn, mode; simpl; discriminate.
  - split; [ simpl; discriminate | ].
    split; [ | discriminate ]. destruct turn, mode; simpl; discriminate.
  - split; [ simpl; discriminate | ].
    split; [ | discriminate ]. destruct turn, mode; simpl; discriminate.
  - split; [ simpl; discriminate | ].
    split; [ | discriminate ]. destruct turn, mode; simpl; discriminate.
Qed.

(** X14.  The end-of-game dialog is rendered for every terminal status
    except the forfeit: among the reachable statuses, the forfeit is the
    only one that is not in progress and yet does not open the dialog. *)
Theorem forfeit_opens_no_dialog s :
  reachable options s ->
  (gameStatus s <> statusInProgress
   /\ showsGameOverModal (gameStatus s) = false)
  <-> gameStatus s = statusForfeit.
Proof.
  intros Hs.
  destruct (reachable_status s Hs)
    as [H | [(win & Hwin & H) | [H | [(why & H) | H]]]]; rewrite H;
    (split; [ intros [Hterm Hshown] | intros Heq ]);
    try discriminate; try congruence.
  split; [ discriminate | reflexivity ].
Qed.

(** X15.  Sound and dialog go together: when muted the effect starts no
    sound at all, and when not muted it starts the end sound exactly for
    the statuses that open the end-of-game dialog. *)
Theorem end_sound_goes_with_dialog s :
  soundEffect true s = None
  /\ (soundEffect false s = Some sound_end
      <-> showsGameOverModal (gameStatus s) = true).
Proof.
  unfold soundEffect, showsGameOverModal, playSound.
  destruct (isCheckmate (gameStatus s) || isStalemate (gameStatus s)
            || isDraw (gameStatus s)); [ split; [ | split ]; reflexivity | ].
  destruct (Chess.in_check (game s));
    [ split; [ | split ]; (reflexivity || discriminate) | ].
  destruct (bool_decide (0 < length (history s)));
    [ | split; [ | split ]; (reflexivity || discriminate) ].
  destruct (history s !! (length (history s) - 1)) as [lastMove | ];
    [ destruct (includes "x" lastMove) | ];
    split; try split; (reflexivity || discriminate).
Qed.

(** X16.  A square of the board view is marked as a possible move exactly
    when a non-empty selection exists and the engine lists a move from the
    selected square to it. *)
Theorem highlight_matches_engine_moves s (square : Square) :
  isPossibleMove (possibleMoves s) square = true
  <-> exists sel candidate,
        selectedSquare s = Some sel /\ sel <> ""
        /\ candidate ∈ Chess.moves_square (game s) sel
        /\ vm_to candidate = square.
Proof.
  unfold isPossibleMove, possibleMoves. rewrite bool_decide_eq_true.
  destruct (selectedSquare s) as [sel | ].
  - destruct (decide (sel = "")) as [-> | Hsel].
    + split; [ intros Hin; inversion Hin | ].
      intros (sel & candidate & Heq & Hne & _). congruence.
    + rewrite <- list_fmap_compose. rewrite list_elem_of_fmap. split.
      * intros (candidate & -> & Hin). exists sel, candidate. auto.
      * intros (sel' & candidate & Heq & _ & Hin & <-).
        inversion Heq; subst. exists candidate. auto.
  - split; [ intros Hin; inversion Hin | ].
    intros (sel & candidate & Heq & _). discriminate.
Qed.

End HookExtras.

(** ** The AI turn across its await *)

Section SuspendedTurns.

Context {E : Chess.Instance} {R : Runtime}.

Variable options : option Options.

Lemma makeMove_moves mv (s : HookState E) :
  positionKept s (makeMove mv s).2 \/ oneMoveApplied s (makeMove mv s).2.
Proof.
  unfold makeMove, positionKept, oneMoveApplied.
  destruct (Chess.move (game s) mv) as [g' | ] eqn:Hmove; simpl.
  - right. exists mv, g'. repeat split. exact Hmove.
  - left. repeat split.
Qed.

(** What a resumed turn does to the state it runs on: the override stays,
    the count grows by at most two, and at most one move is applied to the
    instance of the closure. *)
Lemma aiTurnResume_effect answer x1 x2 x3 (s : HookState E) :
  let s' := aiTurnResume options answer x1 x2 x3 s in
  manualGameStatus s' = manualGameStatus s
  /\ invalidMoveCount s <= invalidMoveCount s' <= invalidMoveCount s + 2
  /\ (positionKept s s' \/ oneMoveApplied s s').
Proof.
  unfold aiTurnResume, aiAfterAwait, aiCatch.
  destruct answer as [[m | ] | error].
  - match goal with
    | |- context [applyMoveToMake ?mv ?x ?st] =>
        destruct (applyMoveToMake_effect mv x st) as (Hm & Hc & _);
        destruct (applyMoveToMake_moves mv x st) as [Hk | Ha]
    end; simpl in *; rewrite Hm, Hc;
      (split; [ reflexivity | ]);
      (split; [ match goal with
                | |- context [if ?c then _ else _] => destruct c
                end; lia | ]); auto.
  - match goal with
    | |- context [applyMoveToMake ?mv ?x ?st] =>
        destruct (applyMoveToMake_effect mv x st) as (Hm & Hc & _);
        destruct (applyMoveToMake_moves mv x st) as [Hk | Ha]
    end; simpl in *; rewrite Hm, Hc;
      (split; [ reflexivity | ]);
      (split; [ match goal with
                | |- context [if ?c then _ else _] => destruct c
                end; lia | ]); auto.
  - match goal with
    | |- context [makeMove ?mv ?st] =>
        destruct (makeMove_frame mv st) as (Hc & Hm & _);
        destruct (makeMove_moves mv st) as [Hk | Ha]
    end; simpl in *; rewrite Hm, Hc;
      (split; [ reflexivity | ]); (split; [ lia | ]); auto.
Qed.

(** The turn run in one piece is its first part followed by its second
    part on the same state. *)
Lemma makeAiMove_across_await x1 x2 x3 (s : HookState E) :
  aiMode options = gemini ->
  bool_decide (Chess.turn (game s) = b)
  && negb (isCheckmate (gameStatus s))
  && negb (isDraw (gameStatus s))
  && negb (is_set (manualGameStatus s)) = true ->
  makeAiMove options x1 x2 x3 s
  = aiTurnResume options
      (getAiMoveJson (Chess.fen (game s)) b (legalMovesUci (game s)))
      x1 x2 x3 (setIsAiThinking true s).
Proof.
  intros Hmode Hentry.
  unfold makeAiMove, aiTryBlock, aiTurnResume, aiAfterAwait, aiCatch.
  rewrite Hentry, Hmode. simpl. unfold_bind.
  destruct (getAiMoveJson _ _ _) as [[m | ] | error]; reflexivity.
Qed.

Lemma start_then_resume x1 x2 x3 (ses : Session E) :
  runAsync options
    [aStart x1 x2 x3; aResume (length (pending ses)) x1 x2 x3] ses
  = {| hook := makeAiMove options x1 x2 x3 (hook ses);
       retired := retired ses; pending := pending ses |}.
Proof.
  unfold runAsync. simpl. unfold startAiTurn.
  destruct (aiMode options) eqn:Hmode.
  - destruct (_ && _ && _ && _) eqn:Hentry.
    + unfold resumeAiTurn. simpl.
      rewrite lookup_app_r by lia. rewrite Nat.sub_diag. simpl.
      rewrite (makeAiMove_across_await x1 x2 x3 _ Hmode Hentry).
      f_equal. rewrite delete_middle. apply app_nil_r.
    + unfold resumeAiTurn.
      rewrite (lookup_ge_None_2 (pending ses)) by lia.
      unfold makeAiMove. rewrite Hentry. destruct ses; reflexivity.
  - unfold resumeAiTurn. simpl.
    rewrite (lookup_ge_None_2 (pending ses)) by lia. reflexivity.
Qed.

Lemma reachableAsync_run (ses : Session E) events :
  reachableAsync options ses ->
  reachableAsync options (runAsync options events ses).
Proof.
  revert ses. unfold runAsync.
  induction events as [ | e events IH ]; intros ses Hses; simpl;
    [ exact Hses | ].
  apply IH. constructor. exact Hses.
Defined.

(** Every state of the hook reached with turns run in one piece is reached
    with turns that suspend and resume. *)
Lemma reachable_reachableAsync (s : HookState E) :
  reachable options s ->
  exists ses, reachableAsync options ses /\ hook ses = s.
Proof.
  induction 1 as [ | s e _ (ses & Hses & <-) ].
  - exists initialSession. split; [ constructor | reflexivity ].
  - destruct e as [square | x1 x2 x3 | | ].
    + exists (asyncStep options ses (aClick square)).
      split; [ constructor; exact Hses | reflexivity ].
    + exists (runAsync options
                [aStart x1 x2 x3; aResume (length (pending ses)) x1 x2 x3]
                ses).
      split; [ apply reachableAsync_run, Hses | ].
      rewrite start_then_resume. reflexivity.
    + exists (asyncStep options ses aWatch).
      split; [ constructor; exact Hses | reflexivity ].
    + exists (asyncStep options ses aReset).
      split; [ constructor; exact Hses | reflexivity ].
Qed.

Lemma startAiTurn_effect x1 x2 x3 (ses : Session E) :
  let ses' := startAiTurn options x1 x2 x3 ses in
  manualGameStatus (hook ses') = manualGameStatus (hook ses)
  /\ invalidMoveCount (hook ses) <= invalidMoveCount (hook ses')
     <= invalidMoveCount (hook ses) + 2
  /\ (positionKept (hook ses) (hook ses')
      \/ oneMoveApplied (hook ses) (hook ses')).
Proof.
  unfold startAiTurn. destruct (aiMode options).
  - destruct (_ && _ && _ && _); simpl;
      (split; [ reflexivity | ]); (split; [ lia | ]);
      left; repeat split.
  - simpl. split; [ apply makeAiMove_manual | ].
    split; [ apply makeAiMove_count | ].
    destruct (makeAiMove_moves options x1 x2 x3 (hook ses)) as [H | [_ H]];
      auto.
Qed.

Lemma resumeAiTurn_effect turn x1 x2 x3 (ses : Session E) :
  let ses' := resumeAiTurn options turn x1 x2 x3 ses in
  manualGameStatus (hook ses') = manualGameStatus (hook ses)
  /\ invalidMoveCount (hook ses) <= invalidMoveCount (hook ses')
     <= invalidMoveCount (hook ses) + 2.
Proof.
  unfold resumeAiTurn.
  destruct (pending ses !! turn) as [p | ]; [ | simpl; split; [ auto | lia ] ].
  destruct (p_game p) as [k | ].
  - destruct (retired ses !! k) as [held | ];
      [ | simpl; split; [ auto | lia ] ].
    destruct (aiTurnResume_effect (p_answer p) x1 x2 x3
                (setGame held (hook ses))) as (Hm & Hc & _).
    simpl in *. auto.
  - destruct (aiTurnResume_effect (p_answer p) x1 x2 x3 (hook ses))
      as (Hm & Hc & _).
    simpl in *. auto.
Qed.

(** A turn whose closure holds a replaced instance leaves the instance of
    the state variable alone. *)
Lemma resumeAiTurn_stale turn x1 x2 x3 (ses : Session E) p k :
  pending ses !! turn = Some p -> p_game p = Some k ->
  game (hook (resumeAiTurn options turn x1 x2 x3 ses)) = game (hook ses).
Proof.
  intros Hp Hk. unfold resumeAiTurn. rewrite Hp, Hk.
  destruct (retired ses !! k); reflexivity.
Qed.

Lemma resumeAiTurn_current turn x1 x2 x3 (ses : Session E) :
  Forall (fun p => p_game p = None) (pending ses) ->
  let ses' := resumeAiTurn options turn x1 x2 x3 ses in
  Forall (fun p => p_game p = None) (pending ses')
  /\ (positionKept (hook ses) (hook ses')
      \/ oneMoveApplied (hook ses) (hook ses')).
Proof.
  intros Hall. unfold resumeAiTurn.
  destruct (pending ses !! turn) as [p | ] eqn:Hp;
    [ | split; [ exact Hall | left; apply positionKept_refl ] ].
  rewrite (Forall_lookup_1 _ _ _ _ Hall Hp). simpl.
  split; [ apply Forall_delete, Hall | ].
  destruct (aiTurnResume_effect (p_answer p) x1 x2 x3 (hook ses))
    as (_ & _ & Hmoves).
  exact Hmoves.
Qed.

(** A status other than "in progress" closes the entry of the click
    handler and of the AI turn. *)
Lemma terminal_entry_closed (ses : Session E) :
  gameStatus (hook ses) <> statusInProgress ->
  (forall square, asyncStep options ses (aClick square) = ses)
  /\ (forall x1 x2 x3, asyncStep options ses (aStart x1 x2 x3) = ses).
Proof.
  intros Hterm. pose proof (terminal_blocks _ Hterm) as Hblocked.
  split.
  - intros square. simpl.
    rewrite (handleSquareClick_blocked square _ Hblocked).
    destruct ses; reflexivity.
  - intros x1 x2 x3. simpl. unfold startAiTurn. destruct (aiMode options).
    + destruct (isCheckmate (gameStatus (hook ses))),
        (isDraw (gameStatus (hook ses))),
        (is_set (manualGameStatus (hook ses)));
        simpl in Hblocked; try discriminate;
        rewrite ?andb_false_r; reflexivity.
    + rewrite (makeAiMove_blocked options x1 x2 x3 _ Hblocked).
      destruct ses; reflexivity.
Qed.

(** *** The override *)

Lemma asyncStep_override (ses : Session E) e :
  is_aReset e = false ->
  manualGameStatus (hook (asyncStep options ses e))
  = manualGameStatus (hook ses)
  \/ (e = aWatch /\ manualGameStatus (hook ses) = None).
Proof.
  intros He. destruct e as [square | x1 x2 x3 | turn x1 x2 x3 | | ];
    simpl; [ | | | | discriminate ].
  - left. apply handleSquareClick_frame.
  - left. apply startAiTurn_effect.
  - left. apply resumeAiTurn_effect.
  - destruct (manualGameStatus (hook ses)) as [st | ] eqn:Hm; [ | auto ].
    left. rewrite (limitWatcher_set options _ st Hm). exact Hm.
Qed.

Lemma asyncStep_blocked (ses : Session E) st e :
  manualGameStatus (hook ses) = Some st ->
  match e with aResume _ _ _ _ | aReset => False | _ => True end ->
  asyncStep options ses e = ses.
Proof.
  intros Hm He.
  assert (isCheckmate (gameStatus (hook ses)) || isDraw (gameStatus (hook ses))
          || is_set (manualGameStatus (hook ses)) = true) as Hblocked.
  { rewrite Hm. rewrite !orb_true_r. reflexivity. }
  destruct e as [square | x1 x2 x3 | turn x1 x2 x3 | | ]; simpl;
    try contradiction.
  - rewrite (handleSquareClick_blocked square _ Hblocked).
    destruct ses; reflexivity.
  - unfold startAiTurn. destruct (aiMode options).
    + rewrite Hm. simpl. rewrite !andb_false_r. reflexivity.
    + rewrite (makeAiMove_blocked options x1 x2 x3 _ Hblocked).
      destruct ses; reflexivity.
  - rewrite (limitWatcher_set options _ st Hm). destruct ses; reflexivity.
Qed.

Lemma runAsync_override (ses : Session E) st events :
  manualGameStatus (hook ses) = Some st ->
  Forall (fun e => is_aReset e = false) events ->
  manualGameStatus (hook (runAsync options events ses)) = Some st.
Proof.
  intros Hm Hall. revert ses Hm. unfold runAsync.
  induction Hall as [ | e events He _ IH ]; intros ses Hm; simpl;
    [ exact Hm | ].
  apply IH.
  destruct (asyncStep_override ses e He) as [-> | [_ Hnone]];
    [ exact Hm | congruence ].
Qed.

(** X8.  The override is written once.  When it is set, a click, the start
    of an AI turn and a run of the limit watcher leave the whole session as
    it is; and no sequence of events without a reset, the resumption of
    suspended turns included, changes the override or the status derived
    from it. *)
Theorem override_outlives_events (ses : Session E) (st : GameStatus) :
  manualGameStatus (hook ses) = Some st ->
  (forall square, asyncStep options ses (aClick square) = ses)
  /\ (forall x1 x2 x3, asyncStep options ses (aStart x1 x2 x3) = ses)
  /\ asyncStep options ses aWatch = ses
  /\ (forall events, Forall (fun e => is_aReset e = false) events ->
        manualGameStatus (hook (runAsync options events ses)) = Some st
        /\ gameStatus (hook (runAsync options events ses)) = st).
Proof.
  intros Hm. repeat split.
  - intros square. apply (asyncStep_blocked ses st (aClick square) Hm I).
  - intros x1 x2 x3. apply (asyncStep_blocked ses st (aStart x1 x2 x3) Hm I).
  - apply (asyncStep_blocked ses st aWatch Hm I).
  - apply runAsync_override; assumption.
  - apply gameStatus_manual, runAsync_override; assumption.
Qed.

Lemma asyncStep_forfeit_earned (ses : Session E) e :
  (manualGameStatus (hook ses) = Some statusForfeit ->
     MAX_INVALID_MOVES options <= invalidMoveCount (hook ses)) ->
  manualGameStatus (hook (asyncStep options ses e)) = Some statusForfeit ->
  MAX_INVALID_MOVES options <= invalidMoveCount (hook (asyncStep options ses e)).
Proof.
  intros IH. destruct e as [square | x1 x2 x3 | turn x1 x2 x3 | | ]; simpl.
  - destruct (handleSquareClick_frame square (hook ses)) as (-> & ->).
    exact IH.
  - destruct (startAiTurn_effect x1 x2 x3 ses) as (Hm & Hc & _).
    simpl in *. rewrite Hm. intros H. specialize (IH H). lia.
  - destruct (resumeAiTurn_effect turn x1 x2 x3 ses) as (Hm & Hc).
    simpl in *. rewrite Hm. intros H. specialize (IH H). lia.
  - destruct (limitWatcher_frame options (hook ses))
      as (_ & _ & _ & _ & ->).
    destruct (manualGameStatus (hook ses)) as [st | ] eqn:Hm.
    { rewrite (limitWatcher_set options _ st Hm), Hm. exact IH. }
    rewrite (limitWatcher_unset options _ Hm).
    destruct (bool_decide (MAX_GAME_MOVES options <= _)); [ discriminate | ].
    destruct (bool_decide_reflect
                (MAX_INVALID_MOVES options <= invalidMoveCount (hook ses)));
      [ auto | discriminate ].
  - discriminate.
Qed.

(** X11.  An override is never unearned when it is written, and the
    forfeit stays earned: in every session the hook can reach, with
    suspended turns resumed at any time, a forfeit override means the
    invalid-move count has reached [MAX_INVALID_MOVES]; and a run of the
    limit watcher that sets the max-moves override found a history that
    had reached [MAX_GAME_MOVES]. *)
Theorem override_is_earned (ses : Session E) :
  reachableAsync options ses ->
  (manualGameStatus (hook ses) = Some statusForfeit ->
     MAX_INVALID_MOVES options <= invalidMoveCount (hook ses))
  /\ (manualGameStatus (hook ses) = None ->
      manualGameStatus (hook (asyncStep options ses aWatch))
      = Some statusMaxMoves ->
      MAX_GAME_MOVES options <= length (history (hook ses))).
Proof.
  intros Hses. split.
  - induction Hses as [ | ses e _ IH ]; [ discriminate | ].
    apply asyncStep_forfeit_earned, IH.
  - intros Hm. simpl. rewrite (limitWatcher_unset options _ Hm).
    destruct (bool_decide_reflect
                (MAX_GAME_MOVES options <= length (history (hook ses))));
      [ auto | ].
    destruct (bool_decide (MAX_INVALID_MOVES options <= _)); discriminate.
Qed.

(** *** State variables that mirror the position *)

Lemma calm_step (ses : Session E) e :
  (is_aReset e = true -> pending ses = []) ->
  Forall (fun p => p_game p = None) (pending ses) ->
  Forall (fun p => p_game p = None) (pending (asyncStep options ses e))
  /\ (positionKept (hook ses) (hook (asyncStep options ses e))
      \/ oneMoveApplied (hook ses) (hook (asyncStep options ses e))
      \/ e = aReset).
Proof.
  intros Hcalm Hall.
  destruct e as [square | x1 x2 x3 | turn x1 x2 x3 | | ]; simpl.
  - split; [ exact Hall | ].
    destruct (handleSquareClick_moves square (hook ses)) as [H | [_ H]]; auto.
  - split; [ | destruct (startAiTurn_effect x1 x2 x3 ses) as (_ & _ & [H | H]);
               auto ].
    unfold startAiTurn. destruct (aiMode options); [ | exact Hall ].
    destruct (_ && _ && _ && _); [ | exact Hall ].
    simpl. apply Forall_app. split; [ exact Hall | ].
    repeat constructor.
  - destruct (resumeAiTurn_current turn x1 x2 x3 ses Hall) as (H1 & [H | H]);
      auto.
  - split; [ exact Hall | left ].
    destruct (limitWatcher_frame options (hook ses)) as (Hg & Hf & Hh & Hm & _).
    repeat split; assumption.
  - rewrite (Hcalm eq_refl). simpl. split; [ constructor | auto ].
Qed.

Lemma calmRun_mirrors events :
  forall ses : Session E,
    calmRun options events ses = true ->
    Forall (fun p => p_game p = None) (pending ses) ->
    fen (hook ses) = Chess.fen (game (hook ses)) ->
    (Chess.history Chess.new = [] ->
       history (hook ses) = Chess.history (game (hook ses))) ->
    let s := hook (runAsync options events ses) in
    fen s = Chess.fen (game s)
    /\ (Chess.history Chess.new = [] ->
          history s = Chess.history (game s)).
Proof.
  unfold runAsync.
  induction events as [ | e events IH ]; intros ses Hcalm Hall Hfen Hhist;
    simpl; [ auto | ].
  simpl in Hcalm. apply andb_prop in Hcalm as [Hnow Hlater].
  assert (is_aReset e = true -> pending ses = []) as Hquiet.
  { intros He. rewrite He in Hnow. destruct (pending ses); [ reflexivity | ].
    discriminate. }
  destruct (calm_step ses e Hquiet Hall) as (Hall' & Hmoves).
  apply IH; [ exact Hlater | exact Hall' | | ].
  - destruct Hmoves as [(Hg & Hf & _) | [(mv & g' & _ & Hg & Hf & _) | ->]].
    + rewrite Hg, Hf. exact Hfen.
    + rewrite Hg, Hf. reflexivity.
    + reflexivity.
  - intros Hnew.
    destruct Hmoves
      as [(Hg & _ & Hh & _) | [(mv & g' & _ & Hg & _ & Hh & _) | ->]].
    + rewrite Hg, Hh. auto.
    + rewrite Hg, Hh. reflexivity.
    + simpl. symmetry. exact Hnew.
Qed.

(** X7.  As long as no reset happens while an AI turn is suspended, the
    [fen] state variable is the FEN of the engine's position; and when the
    engine reports an empty history for a new game, the [history] state
    variable is the engine's history of the position. *)
Theorem mirrors_follow_position_in_calm_runs (events : list AsyncEvent) :
  calmRun options events (initialSession (E := E)) = true ->
  let s := hook (runAsync options events initialSession) in
  fen s = Chess.fen (game s)
  /\ (Chess.history Chess.new = [] -> history s = Chess.history (game s)).
Proof.
  intros Hcalm. apply calmRun_mirrors; [ exact Hcalm | constructor | | ].
  - reflexivity.
  - intros Hnew. simpl. symmetry. exact Hnew.
Qed.

End SuspendedTurns.

Section StaleSessions.

Import Script Scenario Stale.

#[local] Existing Instance E0.
#[local] Existing Instance offline.

(** A turn resumed right after the reset writes the position of the old
    game over the state variables of the new one. *)
Example stale_turn_breaks_mirrors :
  calmRun defaults [aClick "e2"; aClick "e4"; start; aReset; resume 0] mounted
  = false
  /\ Chess.fen (game (hook overwrittenAtOnce)) = Chess.fen Chess.new
  /\ fen (hook overwrittenAtOnce) <> Chess.fen (game (hook overwrittenAtOnce))
  /\ history (hook overwrittenAtOnce) = ["e4"; "e5"]
  /\ Chess.history (game (hook overwrittenAtOnce)) = []
  /\ invalidMoveCount (hook overwrittenAtOnce) = 1.
Proof. vm_compute. repeat split; discriminate. Qed.

(** With a limit of four plies: the new game reaches the limit, the
    watcher sets the draw, and the old turn then leaves a history of two
    moves under that override. *)
Example max_moves_override_outlives_history :
  manualGameStatus (hook fourPliesPlayed) = None
  /\ history (hook fourPliesPlayed) = ["e4"; "e5"; "Nf3"; "Nc6"]
  /\ manualGameStatus (hook drawnAnew) = Some statusMaxMoves
  /\ manualGameStatus (hook shortenedAfterDraw) = Some statusMaxMoves
  /\ history (hook shortenedAfterDraw) = ["e4"; "e5"]
  /\ MAX_GAME_MOVES fourPlies = 4.
Proof. vm_compute. repeat split. Qed.

Lemma forfeitedAnew_reachable : reachableAsync defaults forfeitedAnew.
Proof. do 2 apply reachableAsync_run. constructor. Defined.

(** C5 fails on the code.  The AI turn started after 1. e4 is awaiting the
    provider when the user resets; the new game ends by forfeit (three
    turns with the provider unreachable, then the limit watcher), which is
    a terminal status.  When the old turn then resumes, it counts a failed
    attempt, plays a move on the instance of its closure and writes that
    game over the state variables of the terminal session: the history
    shrinks from six moves to "e4 e5", [fen] is no longer the FEN of the
    session's position, the invalid-move count goes from 3 to 4.  The
    status stays the forfeit and the session's own instance is not moved. *)
Theorem stale_turn_rewrites_terminal_session :
  reachableAsync defaults forfeitedAnew
  /\ gameStatus (hook forfeitedAnew) = statusForfeit
  /\ gameStatus (hook forfeitedAnew) <> statusInProgress
  /\ history (hook forfeitedAnew) = ["e4"; "e5"; "Nf3"; "Nc6"; "Bc4"; "Bc5"]
  /\ fen (hook forfeitedAnew) = Chess.fen (game (hook forfeitedAnew))
  /\ invalidMoveCount (hook forfeitedAnew) = 3
  /\ pending forfeitedAnew = [ {| p_game := Some 0; p_answer := Return None |} ]
  /\ afterStaleTurn = asyncStep defaults forfeitedAnew (resume 0)
  /\ gameStatus (hook afterStaleTurn) = statusForfeit
  /\ game (hook afterStaleTurn) = game (hook forfeitedAnew)
  /\ history (hook afterStaleTurn) = ["e4"; "e5"]
  /\ fen (hook afterStaleTurn) <> fen (hook forfeitedAnew)
  /\ fen (hook afterStaleTurn) <> Chess.fen (game (hook afterStaleTurn))
  /\ invalidMoveCount (hook afterStaleTurn) = 4.
Proof.
  split; [ exact forfeitedAnew_reachable | ].
  vm_compute. repeat split; discriminate.
Qed.

Lemma mirrors_follow_position_in_calm_runs_witness :
  calmRun defaults calmEvents mounted = true
  /\ Chess.history Chess.new = []
  /\ fen (hook (runAsync defaults calmEvents mounted))
     = Chess.fen (game (hook (runAsync defaults calmEvents mounted)))
  /\ history (hook (runAsync defaults calmEvents mounted))
     = Chess.history (game (hook (runAsync defaults calmEvents mounted))).
Proof.
  assert (calmRun defaults calmEvents mounted = true) as Hcalm
    by reflexivity.
  destruct (mirrors_follow_position_in_calm_runs defaults calmEvents Hcalm)
    as (Hfen & Hhist).
  split; [ exact Hcalm | ]. split; [ reflexivity | ].
  split; [ exact Hfen | apply Hhist; reflexivity ].
Defined.

Lemma override_outlives_events_witness :
  manualGameStatus (hook forfeitedAnew) = Some statusForfeit
  /\ asyncStep defaults forfeitedAnew (aClick "d2") = forfeitedAnew
  /\ asyncStep defaults forfeitedAnew start = forfeitedAnew
  /\ asyncStep defaults forfeitedAnew aWatch = forfeitedAnew
  /\ gameStatus
       (hook (runAsync defaults [aClick "d2"; start; resume 0; aWatch]
                forfeitedAnew))
     = statusForfeit.
Proof.
  assert (manualGameStatus (hook forfeitedAnew) = Some statusForfeit) as Hm
    by reflexivity.
  destruct (override_outlives_events defaults forfeitedAnew statusForfeit Hm)
    as (Hclick & Hstart & Hwatch & Hrun).
  split; [ exact Hm | ]. split; [ apply Hclick | ].
  split; [ apply Hstart | ]. split; [ exact Hwatch | ].
  apply Hrun. repeat constructor.
Defined.

Lemma fourPliesPlayed_reachable : reachableAsync fourPlies fourPliesPlayed.
Proof. apply reachableAsync_run. constructor. Defined.

Lemma afterStaleTurn_reachable : reachableAsync defaults afterStaleTurn.
Proof. constructor. exact forfeitedAnew_reachable. Defined.

Lemma override_is_earned_witness :
  (reachableAsync defaults afterStaleTurn
   /\ manualGameStatus (hook afterStaleTurn) = Some statusForfeit
   /\ MAX_INVALID_MOVES defaults <= invalidMoveCount (hook afterStaleTurn))
  /\ (reachableAsync fourPlies fourPliesPlayed
      /\ manualGameStatus (hook fourPliesPlayed) = None
      /\ manualGameStatus (hook (asyncStep fourPlies fourPliesPlayed aWatch))
         = Some statusMaxMoves
      /\ MAX_GAME_MOVES fourPlies <= length (history (hook fourPliesPlayed))).
Proof.
  destruct (override_is_earned defaults afterStaleTurn afterStaleTurn_reachable)
    as (Hforfeit & _).
  destruct (override_is_earned fourPlies fourPliesPlayed
              fourPliesPlayed_reachable) as (_ & Hdraw).
  split.
  - split; [ exact afterStaleTurn_reachable | ]. split; [ reflexivity | ].
    apply Hforfeit. reflexivity.
  - split; [ exact fourPliesPlayed_reachable | ]. split; [ reflexivity | ].
    split; [ reflexivity | ]. apply Hdraw; reflexivity.
Defined.

End StaleSessions.

(** ** The end-of-game dialog *)

(** X17.  Whenever the dialog is rendered it reports a checkmate or a
    draw: its title is "Victory!" or "Defeat!" for a checkmate and
    "Game Over" otherwise, and its text names the draw reason; the branch
    that words a forfeit is never the one taken. *)
Theorem dialog_never_reports_forfeit (status : GameStatus) :
  showsGameOverModal status = true ->
  getTitle status
  = (if isCheckmate status
     then (if decide (winner status = Some winner_w)
           then "Victory!" else "Defeat!")
     else "Game Over")
  /\ getMessage status
     = (if isCheckmate status
        then "You have "
             +:+ (if decide (winner status = Some winner_w)
                  then "defeated" else "been defeated by")
             +:+ " the Grandmaster!"
        else "The game is a draw due to " +:+ reason status +:+ ".").
Proof.
  unfold showsGameOverModal, getTitle, getMessage.
  destruct (isCheckmate status), (isStalemate status), (isDraw status);
    simpl; intros Hshown; try discriminate; rewrite ?andb_false_r;
    split; reflexivity.
Qed.

(** ** The move list of the panel *)

Lemma pair_induction (P : list string -> Prop) :
  P [] -> (forall a, P [a]) ->
  (forall a c rest, P rest -> P (a :: c :: rest)) ->
  forall l, P l.
Proof.
  intros Hnil Hone Hstep. fix IH 1.
  intros [ | a [ | c rest ] ]; [ exact Hnil | apply Hone | ].
  apply Hstep, IH.
Qed.

(** The reduction over the history builds the lines two moves at a time. *)
Lemma moveRows_from (history : list string) :
  forall l pre acc,
    history = (pre ++ l)%list -> length pre `mod` 2 = 0 ->
    foldl (pushRow history) acc (imap (fun i => pair (length pre + i)) l)
    = (acc ++ rowsFrom (length pre) l)%list.
Proof.
  intros l. induction l as [ | a | a c rest IH ] using pair_induction;
    intros pre acc Hhist Heven.
  - simpl. rewrite app_nil_r. reflexivity.
  - cbn [imap foldl pushRow rowsFrom]. rewrite Nat.add_0_r.
    destruct (decide _); [ | congruence ].
    unfold secondOf. rewrite Hhist, lookup_ge_None_2
      by (rewrite length_app; simpl; lia).
    reflexivity.
  - cbn [imap foldl pushRow compose]. rewrite Nat.add_0_r.
    destruct (decide (length pre `mod` 2 = 0)); [ | congruence ].
    destruct (decide ((length pre + 1) `mod` 2 = 0)) as [Hodd | _].
    { exfalso. rewrite Nat.Div0.add_mod, Heven in Hodd.
      simpl in Hodd. discriminate. }
    assert (secondOf history (length pre)
            = if decide (c = "") then "..." else c) as ->.
    { unfold secondOf. rewrite Hhist.
      rewrite lookup_app_r by lia.
      replace (length pre + 1 - length pre) with 1 by lia. reflexivity. }
    rewrite (imap_ext _ (fun i => pair (length (pre ++ [a; c]) + i)))
      by (intros i x _; simpl; rewrite length_app; simpl; f_equal; lia).
    rewrite IH.
    + rewrite length_app. simpl. rewrite <- app_assoc. reflexivity.
    + rewrite Hhist, <- app_assoc. reflexivity.
    + rewrite length_app. cbn [length].
      rewrite Nat.Div0.add_mod, Heven. reflexivity.
Qed.

Lemma moveRows_rowsFrom (history : list string) :
  moveRows history = rowsFrom 0 history.
Proof.
  unfold moveRows.
  rewrite (imap_ext _ (fun i => pair (length (@nil string) + i)))
    by reflexivity.
  rewrite (moveRows_from history history [] []); reflexivity.
Qed.

Lemma rowsFrom_length l :
  forall k, length (rowsFrom k l) = (length l + 1) `div` 2.
Proof.
  induction l as [ | a | a c rest IH ] using pair_induction; intros k;
    [ reflexivity | reflexivity | ].
  cbn [rowsFrom length]. rewrite IH.
  replace (S (S (length rest)) + 1) with (length rest + 1 + 1 * 2) by lia.
  rewrite Nat.div_add by lia. lia.
Qed.

Lemma rowsFrom_numbers l :
  forall k, k `mod` 2 = 0 ->
    row_number <$> rowsFrom k l
    = seq (k `div` 2 + 1) (length (rowsFrom k l)).
Proof.
  induction l as [ | a | a c rest IH ] using pair_induction; intros k Hk;
    [ reflexivity | reflexivity | ].
  cbn [rowsFrom length fmap list_fmap seq row_number]. f_equal.
  rewrite IH by (rewrite Nat.Div0.add_mod, Hk; reflexivity).
  replace (k + 2) with (k + 1 * 2) by lia. rewrite Nat.div_add by lia.
  f_equal. lia.
Qed.

Lemma rowsFrom_texts l :
  forall k, "" ∉ l ->
    concat (rowTexts <$> rowsFrom k l)
    = (l ++ if decide (length l `mod` 2 = 0) then [] else ["..."])%list.
Proof.
  induction l as [ | a | a c rest IH ] using pair_induction; intros k Hne;
    [ reflexivity | reflexivity | ].
  cbn [rowsFrom fmap list_fmap concat rowTexts row_first row_second app].
  rewrite IH by (intros Hin; apply Hne; do 2 right; exact Hin).
  destruct (decide (c = "")) as [-> | _].
  { exfalso. apply Hne. right. left. }
  replace (length (a :: c :: rest)) with (length rest + 1 * 2)
    by (simpl; lia).
  rewrite Nat.Div0.mod_add. reflexivity.
Qed.

(** X18.  The move list of the panel shows every move once and in order:
    it has one line for every two moves of the history (rounded up), the
    lines are numbered from 1, and when no move is the empty text the
    texts of the lines read in order are the history, followed by the
    placeholder '...' when the number of moves is odd. *)
Theorem move_rows_cover_history (history : list string) :
  length (moveRows history) = (length history + 1) `div` 2
  /\ row_number <$> moveRows history = seq 1 (length (moveRows history))
  /\ ("" ∉ history ->
      concat (rowTexts <$> moveRows history)
      = (history
         ++ if decide (length history `mod` 2 = 0) then [] else ["..."])%list).
Proof.
  rewrite moveRows_rowsFrom. split; [ apply rowsFrom_length | ].
  split; [ apply (rowsFrom_numbers history 0); reflexivity | ].
  apply rowsFrom_texts.
Qed.

(** ** The plain-notation provider call *)

(** X19.  [getAiMove] answers the trimmed text of the provider when the
    call succeeds and a text is present; every failure, whether the call
    rejects or the response has no text, reaches the caller as the same
    error "Failed to get move from AI", the cause being dropped. *)
Theorem getAiMove_fails_uniformly {R : Runtime} (fen : string) (player : Color) :
  let prompt :=
    sanPrompt fen (match player with w => "White" | b => "Black" end) in
  match getAiMove fen player with
  | Return move =>
      exists response t,
        generateContent prompt = Return response
        /\ text response = Some t /\ move = trim t
  | Throw error =>
      error = "Error: Failed to get move from AI"
      /\ ((exists cause, generateContent prompt = Throw cause)
          \/ (exists response, generateContent prompt = Return response
                /\ text response = None))
  end.
Proof.
  unfold getAiMove, text_trim. unfold_bind.
  destruct (generateContent _) as [response | cause] eqn:Hcall; simpl.
  - destruct (text response) as [t | ] eqn:Htext; simpl.
    + exists response, t. auto.
    + split; [ reflexivity | right; exists response; auto ].
  - split; [ reflexivity | left; exists cause; reflexivity ].
Qed.

Example getAiMove_trims_unicode_space :
  getAiMove (R := answeringText (nbsp +:+ "Nf3" +:+ nbsp))
    "rnbqkbnr/pppppppp/8/8/8/8/PPPPPPPP/RNBQKBNR w KQkq - 0 1" w
  = Return "Nf3".
Proof. reflexivity. Qed.

(** ** The board view *)

Lemma code_of_nat n : n < 256 -> code (Ascii.ascii_of_nat n) = n.
Proof. intros Hn. unfold code. apply Ascii.nat_ascii_embedding, Hn. Qed.

Lemma js_assign_length i v row : length row <= length (js_assign i v row).
Proof.
  unfold js_assign. destruct (decide _).
  - rewrite length_insert. lia.
  - rewrite !length_app. lia.
Qed.





Lemma fenLoop_returns position :
  forall st, length (fl_board st) = 8 ->
    fl_rank st + slashes position < 8 ->
    exists st', fenLoop position st = Return st'.
Proof.
  induction position as [ | char rest IH ]; intros st Hlen Hrank;
    [ eexists; reflexivity | ].
  simpl in *. unfold fenStep.
  destruct (decide (code char = 47)).
  { apply IH; simpl; [ exact Hlen | lia ]. }
  destruct (isDigit char); [ apply IH; simpl; [ exact Hlen | lia ] | ].
  destruct (lookup_lt_is_Some_2 (fl_board st) (fl_rank st)) as [row Hrow];
    [ lia | ].
  rewrite Hrow. apply IH; simpl; [ | lia ].
  rewrite length_insert. exact Hlen.
Qed.

(** X21.  [fenToBoard] returns a board for every text whose first field
    has at most seven slashes, whatever else it holds (unknown letters,
    the digits 0 and 9, ranks that are too long or too short); the only
    error it can throw is the write to a ninth or later row. *)
Theorem fenToBoard_returns (fen : string) :
  slashes (firstField fen) < 8 ->
  exists board, fenToBoard fen = Return board.
Proof.
  intros Hslashes. unfold fenToBoard.
  destruct (fenLoop_returns (firstField fen)
              {| fl_rank := 0; fl_file := 0;
                 fl_board := replicate 8 (replicate 8 cell_null) |})
    as [st Hst]; [ reflexivity | simpl; lia | ].
  rewrite Hst. eexists. reflexivity.
Qed.

(** *** Reading a placement field *)

Lemma fenLoop_app s1 s2 :
  forall st, fenLoop (s1 +:+ s2) st = (st' ← fenLoop s1 st; fenLoop s2 st').
Proof.
  induction s1 as [ | char rest IH ]; intros st; [ reflexivity | ].
  simpl. unfold_bind. destruct (fenStep st char); [ apply IH | reflexivity ].
Qed.

Lemma fenStep_slash st :
  fenStep st (Ascii.ascii_of_nat 47)
  = Return {| fl_rank := fl_rank st + 1; fl_file := 0;
              fl_board := fl_board st |}.
Proof. reflexivity. Qed.

Lemma fenLoop_runDigit n st :
  n <= 9 ->
  fenLoop (runDigit n) st
  = Return {| fl_rank := fl_rank st; fl_file := fl_file st + n;
              fl_board := fl_board st |}.
Proof.
  intros Hn. unfold runDigit. destruct (decide (n = 0)) as [-> | Hpos].
  - simpl. destruct st. simpl. f_equal. f_equal. lia.
  - cbn [fenLoop]. unfold fenStep, isDigit, parseInt.
    rewrite !code_of_nat by lia.
    destruct (decide (48 + n = 47)); [ lia | ].
    rewrite bool_decide_eq_true_2 by lia. unfold_bind.
    f_equal. f_equal. lia.
Qed.

Lemma fenStep_piece (p : Piece) st row :
  fl_board st !! fl_rank st = Some row ->
  fenStep st (pieceLetter p)
  = Return {| fl_rank := fl_rank st; fl_file := fl_file st + 1;
              fl_board := <[fl_rank st :=
                              js_assign (fl_file st) (cellOf (Some p)) row]>
                            (fl_board st) |}.
Proof.
  intros Hrow. unfold fenStep. rewrite Hrow.
  destruct p as [[ | | | | | ] [ | ]]; reflexivity.
Qed.

Lemma rank_read (row : list (option Piece)) :
  forall empties file cells rank board,
    board !! rank = Some cells -> length cells = 8 ->
    file + empties + length row <= 8 ->
    fenLoop (rankField row empties)
      {| fl_rank := rank; fl_file := file; fl_board := board |}
    = Return {| fl_rank := rank; fl_file := file + empties + length row;
                fl_board := <[rank := writeRow (file + empties) row cells]>
                              board |}.
Proof.
  induction row as [ | [p | ] rest IH ];
    intros empties file cells rank board Hrow Hlen Hfit;
    cbn [rankField length writeRow] in *.
  - rewrite fenLoop_runDigit by lia. cbn [fl_rank fl_file fl_board].
    rewrite list_insert_id by exact Hrow. f_equal. f_equal. lia.
  - rewrite fenLoop_app, fenLoop_runDigit by lia. unfold_bind.
    cbn [fenLoop fl_rank fl_file fl_board].
    rewrite (fenStep_piece p _ cells) by exact Hrow.
    cbn [fl_rank fl_file fl_board].
    unfold js_assign. destruct (decide _); [ | lia ]. unfold_bind.
    rewrite (IH 0 (file + empties + 1)
               (<[file + empties := cellOf (Some p)]> cells));
      [ | apply list_lookup_insert_eq; eapply lookup_lt_Some, Hrow
        | rewrite length_insert; exact Hlen | lia ].
    rewrite list_insert_insert_eq.
    replace (file + empties + 1 + 0) with (S (file + empties)) by lia.
    f_equal. f_equal. lia.
  - rewrite (IH (S empties) file cells rank board Hrow Hlen) by lia.
    replace (file + S empties) with (S (file + empties)) by lia.
    f_equal. f_equal. lia.
Qed.

Lemma writeRow_cells (row : list (option Piece)) :
  forall before after,
    writeRow (length before) row
      (before ++ replicate (length row) cell_null ++ after)%list
    = (before ++ (cellOf <$> row) ++ after)%list.
Proof.
  induction row as [ | [p | ] rest IH ]; intros before after; simpl.
  - reflexivity.
  - rewrite insert_app_r_alt by lia. rewrite Nat.sub_diag. simpl.
    specialize (IH (before ++ [cellOf (Some p)])%list after).
    rewrite length_app, <- !app_assoc in IH. simpl in IH.
    rewrite Nat.add_1_r in IH. exact IH.
  - specialize (IH (before ++ [cell_null])%list after).
    rewrite length_app, <- !app_assoc in IH. simpl in IH.
    rewrite Nat.add_1_r in IH. exact IH.
Qed.

Lemma rank_read_empty_row (row : list (option Piece)) rank board :
  length row = 8 ->
  board !! rank = Some (replicate 8 cell_null) ->
  fenLoop (rankField row 0)
    {| fl_rank := rank; fl_file := 0; fl_board := board |}
  = Return {| fl_rank := rank; fl_file := 8;
              fl_board := <[rank := cellOf <$> row]> board |}.
Proof.
  intros Hlen Hrow.
  rewrite (rank_read row 0 0 (replicate 8 cell_null) rank board Hrow)
    by (rewrite ?length_replicate; lia).
  pose proof (writeRow_cells row [] []) as Hcells.
  rewrite Hlen, !app_nil_r in Hcells. cbn [length app] in Hcells.
  cbn [Nat.add]. rewrite Hcells, Hlen. reflexivity.
Qed.

Lemma fenLoop_slash rest st :
  fenLoop ("/" +:+ rest) st
  = fenLoop rest {| fl_rank := fl_rank st + 1; fl_file := 0;
                    fl_board := fl_board st |}.
Proof. reflexivity. Qed.

Lemma board_read (rows : list (list (option Piece))) :
  forall done : list (list Cell),
    rows <> [] -> Forall (fun row => length row = 8) rows ->
    fenLoop (placement rows)
      {| fl_rank := length done; fl_file := 0;
         fl_board := (done ++ replicate (length rows)
                                  (replicate 8 cell_null))%list |}
    = Return {| fl_rank := length done + length rows - 1; fl_file := 8;
                fl_board := (done ++ cellsOf rows)%list |}.
Proof.
  unfold placement.
  induction rows as [ | row rows IH ]; intros done Hne Hall; [ congruence | ].
  apply Forall_cons in Hall as [Hrow Hall].
  destruct rows as [ | row2 rows ].
  - cbn [fmap list_fmap join length replicate].
    rewrite rank_read_empty_row;
      [ | exact Hrow | apply list_lookup_middle; reflexivity ].
    rewrite insert_app_r_alt, Nat.sub_diag by lia.
    cbn [insert list_insert cellsOf fmap list_fmap].
    f_equal. f_equal. lia.
  - change (join "/" ((fun r => rankField r 0) <$> row :: row2 :: rows))
      with (rankField row 0
            +:+ "/" +:+ join "/" ((fun r => rankField r 0) <$> row2 :: rows)).
    rewrite fenLoop_app.
    rewrite rank_read_empty_row;
      [ | exact Hrow
        | rewrite lookup_app_r, Nat.sub_diag by lia; reflexivity ].
    unfold_bind. rewrite fenLoop_slash. cbn [fl_rank fl_file fl_board].
    rewrite insert_app_r_alt, Nat.sub_diag by lia.
    specialize (IH (done ++ [cellOf <$> row])%list).
    rewrite length_app in IH. cbn [length] in IH.
    rewrite <- app_assoc in IH. cbn [app] in IH.
    specialize (IH ltac:(congruence) Hall).
    etransitivity; [ exact IH | ].
    unfold cellsOf. cbn [fmap list_fmap length]. rewrite <- app_assoc.
    cbn [app]. f_equal. f_equal. lia.
Qed.

Lemma spaceFree_app s1 s2 :
  spaceFree (s1 +:+ s2) = spaceFree s1 && spaceFree s2.
Proof.
  induction s1 as [ | char rest IH ]; [ reflexivity | ].
  simpl. rewrite IH, andb_assoc. reflexivity.
Qed.

Lemma spaceFree_runDigit n : n <= 9 -> spaceFree (runDigit n) = true.
Proof.
  intros Hn. unfold runDigit. destruct (decide (n = 0)); [ reflexivity | ].
  cbn [spaceFree]. rewrite code_of_nat by lia.
  rewrite bool_decide_eq_false_2 by lia. reflexivity.
Qed.

Lemma spaceFree_rankField (row : list (option Piece)) :
  forall empties, empties + length row <= 9 ->
    spaceFree (rankField row empties) = true.
Proof.
  induction row as [ | [p | ] rest IH ]; intros empties Hfit;
    cbn [rankField length] in *.
  - apply spaceFree_runDigit. lia.
  - rewrite spaceFree_app, spaceFree_runDigit by lia.
    cbn [spaceFree andb]. rewrite IH by lia.
    destruct p as [[ | | | | | ] [ | ]]; reflexivity.
  - apply IH. lia.
Qed.

Lemma spaceFree_placement (rows : list (list (option Piece))) :
  Forall (fun row => length row = 8) rows ->
  spaceFree (placement rows) = true.
Proof.
  unfold placement. induction 1 as [ | row rows Hrow Hall IH ];
    [ reflexivity | ].
  destruct rows as [ | row2 rows ].
  - cbn [fmap list_fmap join]. apply spaceFree_rankField. lia.
  - change (join "/" ((fun r => rankField r 0) <$> row :: row2 :: rows))
      with (rankField row 0
            +:+ "/" +:+ join "/" ((fun r => rankField r 0) <$> row2 :: rows)).
    rewrite !spaceFree_app, spaceFree_rankField, IH by lia. reflexivity.
Qed.

Lemma firstField_spaceFree s rest :
  spaceFree s = true -> firstField (s +:+ " " +:+ rest) = s.
Proof.
  induction s as [ | char s IH ]; [ reflexivity | ].
  simpl. intros Hfree.
  apply andb_true_iff in Hfree as [Hchar Hfree].
  apply negb_true_iff, bool_decide_eq_false in Hchar.
  destruct (decide (code char = 32)); [ contradiction | ].
  rewrite IH by exact Hfree. reflexivity.
Qed.

Lemma firstField_id s : spaceFree s = true -> firstField s = s.
Proof.
  induction s as [ | char s IH ]; [ reflexivity | ].
  simpl. intros Hfree.
  apply andb_true_iff in Hfree as [Hchar Hfree].
  apply negb_true_iff, bool_decide_eq_false in Hchar.
  destruct (decide (code char = 32)); [ contradiction | ].
  rewrite IH by exact Hfree. reflexivity.
Qed.

(** X22.  [fenToBoard] undoes the piece-placement encoding: for a board
    of eight rows of eight squares, reading the text that begins with the
    placement field of the board, whatever fields follow the first space,
    gives back the board, square by square: an empty square as [null], a
    piece as its kind letter and its colour. *)
Theorem fenToBoard_reads_placement (board : list (list (option Piece)))
    (rest : string) :
  length board = 8 ->
  Forall (fun row => length row = 8) board ->
  fenToBoard (placement board +:+ " " +:+ rest) = Return (cellsOf board).
Proof.
  intros Hlen Hall. unfold fenToBoard.
  rewrite firstField_spaceFree by (apply spaceFree_placement, Hall).
  pose proof (board_read board []) as Hread.
  rewrite Hlen in Hread. cbn [length app Nat.add] in Hread.
  rewrite Hread; [ reflexivity | | exact Hall ].
  intros ->. discriminate.
Qed.

(** X23.  Only the first field of the text matters to the board view: for
    a placement text without a space, appending a space and anything else
    (side to move, castling rights, counters) gives the same result, the
    same board or the same error. *)
Theorem fenToBoard_ignores_other_fields (position rest : string) :
  spaceFree position = true ->
  fenToBoard (position +:+ " " +:+ rest) = fenToBoard position.
Proof.
  intros Hfree. unfold fenToBoard.
  rewrite firstField_spaceFree, firstField_id by exact Hfree. reflexivity.
Qed.

(** *** Squares of the view *)

Lemma squareName_coords rankIndex fileIndex :
  rankIndex < 8 -> fileIndex < 8 ->
  Script.squareCoords (squareName rankIndex fileIndex)
  = Some (rankIndex, fileIndex).
Proof.
  intros Hr Hf.
  do 8 (destruct rankIndex as [ | rankIndex ];
        [ do 8 (destruct fileIndex as [ | fileIndex ]; [ reflexivity | ]); lia
        | ]).
  lia.
Qed.

Lemma succ_mod_2 n : S n `mod` 2 = 1 - n `mod` 2.
Proof.
  rewrite <- Nat.add_1_r, Nat.Div0.add_mod.
  pose proof (Nat.mod_upper_bound n 2 ltac:(lia)) as Hlt.
  destruct (n `mod` 2) as [ | [ | k ] ]; [ reflexivity | reflexivity | lia ].
Qed.

(** X24.  The 64 cells of the board view carry 64 different square names,
    so a click reports the cell it came from; and the cells are coloured as
    a checkerboard: going one file or one rank further flips the colour. *)
Theorem board_view_squares (rankIndex fileIndex rankIndex' fileIndex' : nat) :
  (rankIndex < 8 -> fileIndex < 8 -> rankIndex' < 8 -> fileIndex' < 8 ->
   squareName rankIndex fileIndex = squareName rankIndex' fileIndex' ->
   rankIndex = rankIndex' /\ fileIndex = fileIndex')
  /\ isLight rankIndex (S fileIndex) = negb (isLight rankIndex fileIndex)
  /\ isLight (S rankIndex) fileIndex = negb (isLight rankIndex fileIndex).
Proof.
  split.
  - intros Hr Hf Hr' Hf' Heq.
    pose proof (squareName_coords rankIndex fileIndex Hr Hf) as H1.
    pose proof (squareName_coords rankIndex' fileIndex' Hr' Hf') as H2.
    rewrite Heq, H2 in H1. inversion H1. auto.
  - unfold isLight.
    rewrite Nat.add_succ_r, Nat.add_succ_l, !bool_decide_decide, !succ_mod_2.
    pose proof (Nat.mod_upper_bound (rankIndex + fileIndex) 2 ltac:(lia))
      as Hlt.
    destruct ((rankIndex + fileIndex) `mod` 2) as [ | [ | k ] ];
      [ split; reflexivity | split; reflexivity | lia ].
Qed.

(** ** The further properties on concrete inputs *)

Section MoreSessions.

Import Script Scenario.

#[local] Existing Instance E0.
#[local] Existing Instance offline.

Example board_view_of_a_position :
  fenToBoard (Chess.fen (game afterE4)) = Return (cellsOf board1)
  /\ squareName 7 0 = "a1" /\ squareName 0 7 = "h8"
  /\ squareName 0 8 = "undefined8".
Proof. vm_compute. auto. Qed.

Example ninth_row_throws :
  fenToBoard "8/8/8/8/8/8/8/8/p"
  = Throw "TypeError: Cannot set properties of undefined".
Proof. reflexivity. Qed.

Example move_rows_of_three :
  moveRows ["e4"; "e5"; "Nf3"]
  = [ {| row_key := 0; row_number := 1; row_first := "e4"; row_second := "e5" |};
      {| row_key := 1; row_number := 2; row_first := "Nf3";
         row_second := "..." |} ].
Proof. reflexivity. Qed.

(** With an engine that lists a move it rejects, a single AI turn counts
    two invalid moves: the bound of two is reached. *)
Example rejected_fallback_counts_twice :
  invalidMoveCount
    (makeAiMove (E := listsButRejects) defaults firstOf firstOf firstOf
       initialState) = 2.
Proof. reflexivity. Qed.

Lemma material_ignores_placement_witness :
  let pawn := Some {| type := type_p; color := w |} in
  (concat [[pawn; None]] ≡ₚ concat [[None]; [pawn]])
  /\ computeMaterialCount [[pawn; None]] = computeMaterialCount [[None]; [pawn]].
Proof.
  intros pawn.
  assert (concat [[pawn; None]] ≡ₚ concat [[None]; [pawn]]) as Hperm.
  { simpl. apply perm_swap. }
  split; [ exact Hperm | ].
  apply (material_ignores_placement [[pawn; None]] [[None]; [pawn]] Hperm).
Defined.

Lemma random_pick_in_range_witness :
  ["e5"; "c5"] <> []
  /\ exists san, san ∈ ["e5"; "c5"] /\ pickRandom ["e5"; "c5"] firstOf = mv_string san.
Proof.
  assert (["e5"; "c5"] <> @nil string) as Hne by discriminate.
  split; [ exact Hne | ].
  destruct (random_pick_in_range firstOf) as (Hpick & _).
  apply (Hpick ["e5"; "c5"] Hne).
Defined.

Lemma ai_turn_makes_a_move_witness :
  negotiates afterE4 = true
  /\ Chess.moves (game afterE4) <> []
  /\ ("" ∉ Chess.moves (game afterE4))
  /\ oneMoveApplied afterE4
       (makeAiMove defaults firstOf firstOf firstOf afterE4).
Proof.
  assert (negotiates afterE4 = true) as Hneg by reflexivity.
  assert (Chess.moves (game afterE4) <> []) as Hne by discriminate.
  assert ("" ∉ Chess.moves (game afterE4)) as Hempty.
  { change (Chess.moves (game afterE4)) with ["e5"; "c5"]. intros Hin.
    repeat (apply elem_of_cons in Hin as [Hin | Hin]; [ discriminate Hin | ]).
    inversion Hin. }
  split; [ exact Hneg | ]. split; [ exact Hne | ]. split; [ exact Hempty | ].
  apply (ai_turn_makes_a_move defaults firstOf firstOf firstOf afterE4 Hneg
           (scripted_moves_accepted pos0 (game afterE4)) Hne Hempty).
Defined.

Lemma draw_after_move_limit_witness :
  manualGameStatus bothLimits = None
  /\ MAX_GAME_MOVES tight <= length (history bothLimits)
  /\ manualGameStatus (limitWatcher tight bothLimits) = Some statusMaxMoves.
Proof.
  assert (manualGameStatus bothLimits = None) as Hm by reflexivity.
  assert (MAX_GAME_MOVES tight <= length (history bothLimits)) as Hlen
    by (vm_compute; lia).
  destruct (draw_after_move_limit tight bothLimits Hm Hlen) as (Hw & _).
  split; [ exact Hm | ]. split; [ exact Hlen | exact Hw ].
Defined.

Lemma handlers_idle_outside_their_turn_witness :
  isPlayerTurn (gameStatus afterE4) (Chess.turn (game afterE4)) = false
  /\ handleSquareClick "e7" afterE4 = afterE4
  /\ schedulesAiMove fresh = false
  /\ makeAiMove defaults firstOf firstOf firstOf fresh = fresh.
Proof.
  destruct (handlers_idle_outside_their_turn defaults afterE4) as (Hclick & _).
  destruct (handlers_idle_outside_their_turn defaults fresh) as (_ & Hai).
  split; [ reflexivity | ]. split; [ apply Hclick; reflexivity | ].
  split; [ reflexivity | apply Hai; reflexivity ].
Defined.

Lemma status_line_follows_status_witness :
  reachable defaults forfeited
  /\ getStatusMessage (gameStatus forfeited) w gemini <> "You forfeited".
Proof.
  split; [ exact forfeited_reachable | ].
  apply (status_line_follows_status defaults forfeited w gemini
           forfeited_reachable).
Defined.

Lemma forfeit_opens_no_dialog_witness :
  reachable defaults forfeited
  /\ gameStatus forfeited <> statusInProgress
  /\ showsGameOverModal (gameStatus forfeited) = false.
Proof.
  split; [ exact forfeited_reachable | ].
  apply (forfeit_opens_no_dialog defaults forfeited forfeited_reachable).
  reflexivity.
Defined.

Lemma dialog_never_reports_forfeit_witness :
  showsGameOverModal statusStalemate = true
  /\ getTitle statusStalemate = "Game Over"
  /\ getMessage statusStalemate = "The game is a draw due to Stalemate.".
Proof.
  split; [ reflexivity | ].
  apply (dialog_never_reports_forfeit statusStalemate). reflexivity.
Defined.

Lemma move_rows_cover_history_witness :
  ("" ∉ ["e4"; "e5"; "Nf3"])
  /\ concat (rowTexts <$> moveRows ["e4"; "e5"; "Nf3"])
     = ["e4"; "e5"; "Nf3"; "..."].
Proof.
  assert ("" ∉ ["e4"; "e5"; "Nf3"]) as Hne.
  { intros Hin.
    repeat (apply elem_of_cons in Hin as [Hin | Hin]; [ discriminate Hin | ]).
    inversion Hin. }
  split; [ exact Hne | ].
  destruct (move_rows_cover_history ["e4"; "e5"; "Nf3"]) as (_ & _ & Htexts).
  apply (Htexts Hne).
Defined.


Lemma fenToBoard_returns_witness :
  slashes (firstField "9x/0Z w - -") < 8
  /\ exists board, fenToBoard "9x/0Z w - -" = Return board.
Proof.
  assert (slashes (firstField "9x/0Z w - -") < 8) as Hslashes
    by (vm_compute; lia).
  split; [ exact Hslashes | ].
  apply (fenToBoard_returns "9x/0Z w - -" Hslashes).
Defined.

Lemma fenToBoard_reads_placement_witness :
  length startingBoard = 8
  /\ Forall (fun row => length row = 8) startingBoard
  /\ placement startingBoard = "rnbqkbnr/pppppppp/8/8/8/8/PPPPPPPP/RNBQKBNR"
  /\ fenToBoard (Chess.fen Chess.new) = Return (cellsOf startingBoard).
Proof.
  assert (Forall (fun row : list (option Piece) => length row = 8)
            startingBoard) as Hall by (repeat constructor).
  split; [ reflexivity | ]. split; [ exact Hall | ]. split; [ reflexivity | ].
  apply (fenToBoard_reads_placement startingBoard "w KQkq - 0 1" eq_refl Hall).
Defined.

Lemma fenToBoard_ignores_other_fields_witness :
  spaceFree "8/8/4P3" = true
  /\ fenToBoard "8/8/4P3 b KQkq e3 0 1" = fenToBoard "8/8/4P3".
Proof.
  split; [ reflexivity | ].
  apply (fenToBoard_ignores_other_fields "8/8/4P3" "b KQkq e3 0 1").
  reflexivity.
Defined.

Lemma board_view_squares_witness :
  squareName 7 0 <> squareName 0 7
  /\ isLight 7 1 = negb (isLight 7 0).
Proof.
  destruct (board_view_squares 7 0 0 7) as (Hdistinct & Hfile & _).
  split; [ | exact Hfile ].
  intros Heq.
  destruct (Hdistinct ltac:(lia) ltac:(lia) ltac:(lia) ltac:(lia) Heq)
    as [Hr _].
  discriminate Hr.
Defined.

End MoreSessions.
